(** * bluen: synchronised BlueZ entities (Adapter, Device, Battery)

    A shallow embedding of [src/lib/adapter.ts], [src/lib/bluez.ts]
    (the [Device] class) and the [Battery] class, together with the
    properties of the entity synchronisation engine.

    Conventions of the embedding:
    - a D-Bus payload (the [value] of a [{ value: unknown }] wrapper) is a
      [dvalue]; TypeScript's [as T] casts are erased at run time, so a field
      holds whatever payload was delivered;
    - a property bag ([{ [key: string]: { value: unknown } }]) is the list of
      its entries in [Object.entries] order;
    - a field of type [T | null] is a [nullable]; a field that has not been
      assigned yet ([undefined]) is [None] of an [option];
    - [async] code is split at its [await]s: what runs synchronously is a
      function, what is left for the event loop is returned as data
      (scheduled [Task]s, or the suspended rest of a handler);
    - observable actions ([console.warn], [emit], remote calls) are
      collected in a log of [Effect]s. *)

From Stdlib Require Import String List ZArith Bool Arith Lia.
From Stdlib Require Import Permutation.
Import ListNotations.

Local Open Scope string_scope.
Local Open Scope list_scope.

(** ** Values, property bags, errors *)

#[local] Set Warnings "-register-all".

Inductive dvalue : Type :=
| DBool (b : bool)
| DNum (n : Z)
| DStr (s : string)
| DArr (items : list dvalue)
| DDict (entries : list (dvalue * dvalue)).

(** [T | null] *)
Inductive nullable : Type :=
| Null
| Val (v : dvalue).

(** [x ?? null], where [x] is [undefined] ([None]) or a payload. *)
Definition or_null (x : option dvalue) : nullable :=
  match x with
  | Some v => Val v
  | None => Null
  end.

Definition Bag : Type := list (string * dvalue).

(** [bag[prop]]: [None] is JavaScript's [undefined]. *)
Fixpoint bag_get (prop : string) (bag : Bag) : option dvalue :=
  match bag with
  | [] => None
  | (k, v) :: rest => if k =? prop then Some v else bag_get prop rest
  end.

Definition keys {A : Type} (o : list (string * A)) : list string := map fst o.

(** [Object.keys(o).includes(k)] *)
Definition includes (ks : list string) (k : string) : bool :=
  existsb (String.eqb k) ks.

(** [o[k]] on an object with entries [o]. *)
Fixpoint index {A : Type} (o : list (string * A)) (k : string) : option A :=
  match o with
  | [] => None
  | (k', v) :: rest => if k' =? k then Some v else index rest k
  end.

(** The keys of a JavaScript object are pairwise distinct. *)
Definition wf_bag (bag : Bag) : Prop := NoDup (keys bag).

(** [bag[prop] = v]: an existing key keeps its place, a new one goes last. *)
Fixpoint bag_set (bag : Bag) (prop : string) (v : dvalue) : Bag :=
  match bag with
  | [] => [(prop, v)]
  | (k, w) :: rest =>
      if k =? prop then (k, v) :: rest else (k, w) :: bag_set rest prop v
  end.

(** [{ ...n, ...n' }]: the field-wise union in which [n'] takes precedence. *)
Definition bag_union (n n' : Bag) : Bag :=
  fold_left (fun acc kv => bag_set acc (fst kv) (snd kv)) n' n.

Inductive Error : Type :=
| TypeError (at_ : string)       (* [undefined] was dereferenced; [at_] is the place *)
| JsError (message : string)     (* [throw new Error(message)] *)
| RemoteError (detail : string). (* a rejected bus call *)

Inductive result (A : Type) : Type :=
| Ok (a : A)
| Throw (e : Error).
Arguments Ok {A} a.
Arguments Throw {A} e.

Definition bind {A B : Type} (r : result A) (k : A -> result B) : result B :=
  match r with
  | Ok a => k a
  | Throw e => Throw e
  end.

Notation "x <- r ;; k" := (bind r (fun x => k))
  (at level 61, r at next level, right associativity).

(** [objs.map(f)] where [f] may throw: the first exception escapes. *)
Fixpoint map_result {A B : Type} (f : A -> result B) (l : list A) : result (list B) :=
  match l with
  | [] => Ok []
  | x :: rest => y <- f x ;; ys <- map_result f rest ;; Ok (y :: ys)
  end.

(** [data[1].Prop.value]: reading [value] of [undefined] is a [TypeError];
    this is the error a missing required property raises. *)
Definition required (bag : Bag) (prop : string) : result dvalue :=
  match bag_get prop bag with
  | Some v => Ok v
  | None => Throw (TypeError prop)
  end.

(** [data[1].Prop?.value] *)
Definition optional (bag : Bag) (prop : string) : option dvalue :=
  bag_get prop bag.

(** What a handler or a constructor does to the outside world. *)
Inductive Effect : Type :=
| Warn (message : string)        (* [console.warn(message)] *)
| Emit (event : string)          (* [this.emit(event)] *)
| FromPath (path : dvalue).      (* [Adapter.fromPath(path)] is called *)

(** Work left to the event loop by synchronous code. *)
Inductive Task : Type :=
| ListenForChanges (path iface : string)
| ResolveAdapter (path : dvalue)
| PropertySet (path iface prop signature : string) (v : dvalue).

Definition emitted (log : list Effect) : nat :=
  length (filter (fun e => match e with Emit "change" => true | _ => false end) log).

Definition warnings (log : list Effect) : list string :=
  flat_map (fun e => match e with Warn m => [m] | _ => [] end) log.

Definition lookups (log : list Effect) : list dvalue :=
  flat_map (fun e => match e with FromPath p => [p] | _ => [] end) log.

(** The names among [ks] that [recognized] rejects. *)
Definition unrecognized (recognized : string -> bool) (ks : list string) : list string :=
  filter (fun k => negb (recognized k)) ks.

(** ** Adapter ([src/lib/adapter.ts]) *)

Module Adapter.

Definition IFACE : string := "org.bluez.Adapter1".

Record t : Type := {
  _path : string;
  _address : dvalue;
  _name : dvalue;
  _alias : dvalue;
  _class : dvalue;
  _powered : dvalue;
  _discoverable : dvalue;
  _pairable : dvalue;
  _pairableTimeout : dvalue;
  _discoverableTimeout : dvalue;
  _discovering : dvalue;
  _uuids : dvalue;
  _modalias : nullable
}.

(** The [data] argument of the constructor. *)
Record Data : Type := {
  address : dvalue;
  name : dvalue;
  alias : dvalue;
  class : dvalue;
  powered : dvalue;
  discoverable : dvalue;
  pairable : dvalue;
  pairableTimeout : dvalue;
  discoverableTimeout : dvalue;
  discovering : dvalue;
  uuids : dvalue;
  modalias : option dvalue
}.

Definition with_address (v : dvalue) (x : t) : t :=
  {|
    _path := _path x; _address := v; _name := _name x; _alias := _alias x;
    _class := _class x; _powered := _powered x; _discoverable := _discoverable x;
    _pairable := _pairable x; _pairableTimeout := _pairableTimeout x;
    _discoverableTimeout := _discoverableTimeout x; _discovering := _discovering x;
    _uuids := _uuids x; _modalias := _modalias x
  |}.
Definition with_name (v : dvalue) (x : t) : t :=
  {|
    _path := _path x; _address := _address x; _name := v; _alias := _alias x;
    _class := _class x; _powered := _powered x; _discoverable := _discoverable x;
    _pairable := _pairable x; _pairableTimeout := _pairableTimeout x;
    _discoverableTimeout := _discoverableTimeout x; _discovering := _discovering x;
    _uuids := _uuids x; _modalias := _modalias x
  |}.
Definition with_alias (v : dvalue) (x : t) : t :=
  {|
    _path := _path x; _address := _address x; _name := _name x; _alias := v;
    _class := _class x; _powered := _powered x; _discoverable := _discoverable x;
    _pairable := _pairable x; _pairableTimeout := _pairableTimeout x;
    _discoverableTimeout := _discoverableTimeout x; _discovering := _discovering x;
    _uuids := _uuids x; _modalias := _modalias x
  |}.
Definition with_class (v : dvalue) (x : t) : t :=
  {|
    _path := _path x; _address := _address x; _name := _name x; _alias := _alias x;
    _class := v; _powered := _powered x; _discoverable := _discoverable x;
    _pairable := _pairable x; _pairableTimeout := _pairableTimeout x;
    _discoverableTimeout := _discoverableTimeout x; _discovering := _discovering x;
    _uuids := _uuids x; _modalias := _modalias x
  |}.
Definition with_powered (v : dvalue) (x : t) : t :=
  {|
    _path := _path x; _address := _address x; _name := _name x; _alias := _alias x;
    _class := _class x; _powered := v; _discoverable := _discoverable x;
    _pairable := _pairable x; _pairableTimeout := _pairableTimeout x;
    _discoverableTimeout := _discoverableTimeout x; _discovering := _discovering x;
    _uuids := _uuids x; _modalias := _modalias x
  |}.
Definition with_discoverable (v : dvalue) (x : t) : t :=
  {|
    _path := _path x; _address := _address x; _name := _name x; _alias := _alias x;
    _class := _class x; _powered := _powered x; _discoverable := v;
    _pairable := _pairable x; _pairableTimeout := _pairableTimeout x;
    _discoverableTimeout := _discoverableTimeout x; _discovering := _discovering x;
    _uuids := _uuids x; _modalias := _modalias x
  |}.
Definition with_pairable (v : dvalue) (x : t) : t :=
  {|
    _path := _path x; _address := _address x; _name := _name x; _alias := _alias x;
    _class := _class x; _powered := _powered x; _discoverable := _discoverable x;
    _pairable := v; _pairableTimeout := _pairableTimeout x;
    _discoverableTimeout := _discoverableTimeout x; _discovering := _discovering x;
    _uuids := _uuids x; _modalias := _modalias x
  |}.
Definition with_pairableTimeout (v : dvalue) (x : t) : t :=
  {|
    _path := _path x; _address := _address x; _name := _name x; _alias := _alias x;
    _class := _class x; _powered := _powered x; _discoverable := _discoverable x;
    _pairable := _pairable x; _pairableTimeout := v;
    _discoverableTimeout := _discoverableTimeout x; _discovering := _discovering x;
    _uuids := _uuids x; _modalias := _modalias x
  |}.
Definition with_discoverableTimeout (v : dvalue) (x : t) : t :=
  {|
    _path := _path x; _address := _address x; _name := _name x; _alias := _alias x;
    _class := _class x; _powered := _powered x; _discoverable := _discoverable x;
    _pairable := _pairable x; _pairableTimeout := _pairableTimeout x;
    _discoverableTimeout := v; _discovering := _discovering x; _uuids := _uuids x;
    _modalias := _modalias x
  |}.
Definition with_discovering (v : dvalue) (x : t) : t :=
  {|
    _path := _path x; _address := _address x; _name := _name x; _alias := _alias x;
    _class := _class x; _powered := _powered x; _discoverable := _discoverable x;
    _pairable := _pairable x; _pairableTimeout := _pairableTimeout x;
    _discoverableTimeout := _discoverableTimeout x; _discovering := v;
    _uuids := _uuids x; _modalias := _modalias x
  |}.
Definition with_uuids (v : dvalue) (x : t) : t :=
  {|
    _path := _path x; _address := _address x; _name := _name x; _alias := _alias x;
    _class := _class x; _powered := _powered x; _discoverable := _discoverable x;
    _pairable := _pairable x; _pairableTimeout := _pairableTimeout x;
    _discoverableTimeout := _discoverableTimeout x; _discovering := _discovering x;
    _uuids := v; _modalias := _modalias x
  |}.
Definition with_modalias (v : nullable) (x : t) : t :=
  {|
    _path := _path x; _address := _address x; _name := _name x; _alias := _alias x;
    _class := _class x; _powered := _powered x; _discoverable := _discoverable x;
    _pairable := _pairable x; _pairableTimeout := _pairableTimeout x;
    _discoverableTimeout := _discoverableTimeout x; _discovering := _discovering x;
    _uuids := _uuids x; _modalias := v
  |}.
(** [new Adapter(path, data, bus)]: the fields, and the subscription that
    [listenForChanges()] starts. *)
Definition constructor (path : string) (data : Data) : t * list Task :=
  ({| _path := path;
      _address := address data;
      _name := name data;
      _alias := alias data;
      _class := class data;
      _powered := powered data;
      _discoverable := discoverable data;
      _pairable := pairable data;
      _pairableTimeout := pairableTimeout data;
      _discoverableTimeout := discoverableTimeout data;
      _discovering := discovering data;
      _uuids := uuids data;
      _modalias := or_null (modalias data) |},
   [ListenForChanges path IFACE]).

Definition fromDBusObject (data : string * Bag) : result (t * list Task) :=
  let bag := snd data in
  address <- required bag "Address" ;;
  name <- required bag "Name" ;;
  alias <- required bag "Alias" ;;
  class <- required bag "Class" ;;
  powered <- required bag "Powered" ;;
  discoverable <- required bag "Discoverable" ;;
  pairable <- required bag "Pairable" ;;
  pairableTimeout <- required bag "PairableTimeout" ;;
  discoverableTimeout <- required bag "DiscoverableTimeout" ;;
  discovering <- required bag "Discovering" ;;
  uuids <- required bag "UUIDs" ;;
  Ok (constructor (fst data)
        {| address := address; name := name; alias := alias; class := class;
           powered := powered; discoverable := discoverable;
           pairable := pairable; pairableTimeout := pairableTimeout;
           discoverableTimeout := discoverableTimeout;
           discovering := discovering; uuids := uuids;
           modalias := optional bag "Modalias" |}).

(** [setProperty(prop, signature, val)] is asynchronous and not awaited by
    the setters: the call is left to the event loop. *)
Definition setProperty (prop signature : string) (val : dvalue) (a : t) : Task :=
  PropertySet (_path a) IFACE prop signature val.

Definition set_alias (v : string) (a : t) : t * list Task :=
  let a' := with_alias (DStr v) a in (a', [setProperty "Alias" "s" (DStr v) a']).
Definition set_powered (v : bool) (a : t) : t * list Task :=
  let a' := with_powered (DBool v) a in (a', [setProperty "Powered" "b" (DBool v) a']).
Definition set_discoverable (v : bool) (a : t) : t * list Task :=
  let a' := with_discoverable (DBool v) a in
  (a', [setProperty "Discoverable" "b" (DBool v) a']).
Definition set_pairable (v : bool) (a : t) : t * list Task :=
  let a' := with_pairable (DBool v) a in (a', [setProperty "Pairable" "b" (DBool v) a']).
Definition set_pairableTimeout (v : Z) (a : t) : t * list Task :=
  let a' := with_pairableTimeout (DNum v) a in
  (a', [setProperty "PairableTimeout" "u" (DNum v) a']).
Definition set_discoverableTimeout (v : Z) (a : t) : t * list Task :=
  let a' := with_discoverableTimeout (DNum v) a in
  (a', [setProperty "DiscoverableTimeout" "u" (DNum v) a']).

(** The event loop settling a [PropertySet]: [setProperty] ends after its
    [await] and the setter dropped its promise, so neither the reply nor a
    rejection reaches the fields or the caller of the setter. *)
Definition settled (outcome : result unit) (a : t) : t := a.

(** The [case] labels of the [switch (prop)] in the change handler. *)
Inductive Prop_ : Type :=
| Address | Name | Alias | Class | Powered | Discoverable | Pairable
| PairableTimeout | DiscoverableTimeout | Discovering | UUIDs | Modalias.

Definition case_of (prop : string) : option Prop_ :=
  if prop =? "Address" then Some Address
  else if prop =? "Name" then Some Name
  else if prop =? "Alias" then Some Alias
  else if prop =? "Class" then Some Class
  else if prop =? "Powered" then Some Powered
  else if prop =? "Discoverable" then Some Discoverable
  else if prop =? "Pairable" then Some Pairable
  else if prop =? "PairableTimeout" then Some PairableTimeout
  else if prop =? "DiscoverableTimeout" then Some DiscoverableTimeout
  else if prop =? "Discovering" then Some Discovering
  else if prop =? "UUIDs" then Some UUIDs
  else if prop =? "Modalias" then Some Modalias
  else None.

(** The assignment of one [case]. *)
Definition assign (c : Prop_) (value : dvalue) (a : t) : t :=
  match c with
  | Address => with_address value a
  | Name => with_name value a
  | Alias => with_alias value a
  | Class => with_class value a
  | Powered => with_powered value a
  | Discoverable => with_discoverable value a
  | Pairable => with_pairable value a
  | PairableTimeout => with_pairableTimeout value a
  | DiscoverableTimeout => with_discoverableTimeout value a
  | Discovering => with_discovering value a
  | UUIDs => with_uuids value a
  | Modalias => with_modalias (Val value) a
  end.

Definition warning (prop : string) : string :=
  "bluen: Adapter: Unhandled property change: " ++ prop.

(** [for (const [prop, { value }] of Object.entries(changed)) { switch ... ;
    this.emit('change') }]: the [default] case warns and [continue]s, so it
    skips the [emit]. *)
Fixpoint loop (a : t) (changed : Bag) : t * list Effect :=
  match changed with
  | [] => (a, [])
  | (prop, value) :: rest =>
      match case_of prop with
      | Some c =>
          let (a', log) := loop (assign c value a) rest in
          (a', Emit "change" :: log)
      | None =>
          let (a', log) := loop a rest in
          (a', Warn (warning prop) :: log)
      end
  end.

(** The ['PropertiesChanged'] listener. *)
Definition on_PropertiesChanged (iface : string) (changed : Bag) (a : t)
  : t * list Effect :=
  if negb (iface =? IFACE) then (a, []) else loop a changed.

(** *** Views used to state the properties *)

(** The property name of each [case] label. *)
Definition name_of (c : Prop_) : string :=
  match c with
  | Address => "Address"
  | Name => "Name"
  | Alias => "Alias"
  | Class => "Class"
  | Powered => "Powered"
  | Discoverable => "Discoverable"
  | Pairable => "Pairable"
  | PairableTimeout => "PairableTimeout"
  | DiscoverableTimeout => "DiscoverableTimeout"
  | Discovering => "Discovering"
  | UUIDs => "UUIDs"
  | Modalias => "Modalias"
  end.

(** The field a [case] label assigns, read through its accessor. *)
Definition get (c : Prop_) (a : t) : nullable :=
  match c with
  | Address => Val (_address a)
  | Name => Val (_name a)
  | Alias => Val (_alias a)
  | Class => Val (_class a)
  | Powered => Val (_powered a)
  | Discoverable => Val (_discoverable a)
  | Pairable => Val (_pairable a)
  | PairableTimeout => Val (_pairableTimeout a)
  | DiscoverableTimeout => Val (_discoverableTimeout a)
  | Discovering => Val (_discovering a)
  | UUIDs => Val (_uuids a)
  | Modalias => _modalias a
  end.

(** The properties [fromDBusObject] reads without [?.]. *)
Definition required_props : list string :=
  ["Address"; "Name"; "Alias"; "Class"; "Powered"; "Discoverable"; "Pairable";
   "PairableTimeout"; "DiscoverableTimeout"; "Discovering"; "UUIDs"].

(** The effect of one entry of a notification on the fields. *)
Definition step (a : t) (prop : string) (value : dvalue) : t :=
  match case_of prop with
  | Some c => assign c value a
  | None => a
  end.

Definition recognized (prop : string) : bool :=
  match case_of prop with Some _ => true | None => false end.

End Adapter.

(** ** Device (the [Device] class of [src/lib/bluez.ts]) *)

Module Device.

Definition IFACE : string := "org.bluez.Device1".

Record t : Type := {
  _path : string;
  _name : nullable;
  _icon : nullable;
  _class : nullable;
  _appearance : nullable;
  _uuids : nullable;
  _paired : dvalue;
  _connected : dvalue;
  _trusted : dvalue;
  _blocked : dvalue;
  _alias : dvalue;
  _adapter : option Adapter.t;   (* [None]: not assigned yet *)
  _legacyPairing : dvalue;
  _modalias : nullable;
  _rssi : nullable;
  _txPower : nullable;
  _manufacturerData : nullable;
  _serviceData : nullable;
  _gattServices : nullable
}.

(** The [data] argument of the constructor. *)
Record Data : Type := {
  name : option dvalue;
  icon : option dvalue;
  class : option dvalue;
  appearance : option dvalue;
  uuids : option dvalue;
  paired : dvalue;
  connected : dvalue;
  trusted : dvalue;
  blocked : dvalue;
  alias : dvalue;
  adapter : dvalue;
  legacyPairing : dvalue;
  modalias : option dvalue;
  rssi : option dvalue;
  txPower : option dvalue;
  manufacturerData : option dvalue;
  serviceData : option dvalue;
  gattServices : option dvalue
}.

Definition with_name (v : nullable) (x : t) : t :=
  {|
    _path := _path x; _name := v; _icon := _icon x; _class := _class x;
    _appearance := _appearance x; _uuids := _uuids x; _paired := _paired x;
    _connected := _connected x; _trusted := _trusted x; _blocked := _blocked x;
    _alias := _alias x; _adapter := _adapter x; _legacyPairing := _legacyPairing x;
    _modalias := _modalias x; _rssi := _rssi x; _txPower := _txPower x;
    _manufacturerData := _manufacturerData x; _serviceData := _serviceData x;
    _gattServices := _gattServices x
  |}.
Definition with_icon (v : nullable) (x : t) : t :=
  {|
    _path := _path x; _name := _name x; _icon := v; _class := _class x;
    _appearance := _appearance x; _uuids := _uuids x; _paired := _paired x;
    _connected := _connected x; _trusted := _trusted x; _blocked := _blocked x;
    _alias := _alias x; _adapter := _adapter x; _legacyPairing := _legacyPairing x;
    _modalias := _modalias x; _rssi := _rssi x; _txPower := _txPower x;
    _manufacturerData := _manufacturerData x; _serviceData := _serviceData x;
    _gattServices := _gattServices x
  |}.
Definition with_class (v : nullable) (x : t) : t :=
  {|
    _path := _path x; _name := _name x; _icon := _icon x; _class := v;
    _appearance := _appearance x; _uuids := _uuids x; _paired := _paired x;
    _connected := _connected x; _trusted := _trusted x; _blocked := _blocked x;
    _alias := _alias x; _adapter := _adapter x; _legacyPairing := _legacyPairing x;
    _modalias := _modalias x; _rssi := _rssi x; _txPower := _txPower x;
    _manufacturerData := _manufacturerData x; _serviceData := _serviceData x;
    _gattServices := _gattServices x
  |}.
Definition with_appearance (v : nullable) (x : t) : t :=
  {|
    _path := _path x; _name := _name x; _icon := _icon x; _class := _class x;
    _appearance := v; _uuids := _uuids x; _paired := _paired x;
    _connected := _connected x; _trusted := _trusted x; _blocked := _blocked x;
    _alias := _alias x; _adapter := _adapter x; _legacyPairing := _legacyPairing x;
    _modalias := _modalias x; _rssi := _rssi x; _txPower := _txPower x;
    _manufacturerData := _manufacturerData x; _serviceData := _serviceData x;
    _gattServices := _gattServices x
  |}.
Definition with_uuids (v : nullable) (x : t) : t :=
  {|
    _path := _path x; _name := _name x; _icon := _icon x; _class := _class x;
    _appearance := _appearance x; _uuids := v; _paired := _paired x;
    _connected := _connected x; _trusted := _trusted x; _blocked := _blocked x;
    _alias := _alias x; _adapter := _adapter x; _legacyPairing := _legacyPairing x;
    _modalias := _modalias x; _rssi := _rssi x; _txPower := _txPower x;
    _manufacturerData := _manufacturerData x; _serviceData := _serviceData x;
    _gattServices := _gattServices x
  |}.
Definition with_paired (v : dvalue) (x : t) : t :=
  {|
    _path := _path x; _name := _name x; _icon := _icon x; _class := _class x;
    _appearance := _appearance x; _uuids := _uuids x; _paired := v;
    _connected := _connected x; _trusted := _trusted x; _blocked := _blocked x;
    _alias := _alias x; _adapter := _adapter x; _legacyPairing := _legacyPairing x;
    _modalias := _modalias x; _rssi := _rssi x; _txPower := _txPower x;
    _manufacturerData := _manufacturerData x; _serviceData := _serviceData x;
    _gattServices := _gattServices x
  |}.
Definition with_connected (v : dvalue) (x : t) : t :=
  {|
    _path := _path x; _name := _name x; _icon := _icon x; _class := _class x;
    _appearance := _appearance x; _uuids := _uuids x; _paired := _paired x;
    _connected := v; _trusted := _trusted x; _blocked := _blocked x;
    _alias := _alias x; _adapter := _adapter x; _legacyPairing := _legacyPairing x;
    _modalias := _modalias x; _rssi := _rssi x; _txPower := _txPower x;
    _manufacturerData := _manufacturerData x; _serviceData := _serviceData x;
    _gattServices := _gattServices x
  |}.
Definition with_trusted (v : dvalue) (x : t) : t :=
  {|
    _path := _path x; _name := _name x; _icon := _icon x; _class := _class x;
    _appearance := _appearance x; _uuids := _uuids x; _paired := _paired x;
    _connected := _connected x; _trusted := v; _blocked := _blocked x;
    _alias := _alias x; _adapter := _adapter x; _legacyPairing := _legacyPairing x;
    _modalias := _modalias x; _rssi := _rssi x; _txPower := _txPower x;
    _manufacturerData := _manufacturerData x; _serviceData := _serviceData x;
    _gattServices := _gattServices x
  |}.
Definition with_blocked (v : dvalue) (x : t) : t :=
  {|
    _path := _path x; _name := _name x; _icon := _icon x; _class := _class x;
    _appearance := _appearance x; _uuids := _uuids x; _paired := _paired x;
    _connected := _connected x; _trusted := _trusted x; _blocked := v;
    _alias := _alias x; _adapter := _adapter x; _legacyPairing := _legacyPairing x;
    _modalias := _modalias x; _rssi := _rssi x; _txPower := _txPower x;
    _manufacturerData := _manufacturerData x; _serviceData := _serviceData x;
    _gattServices := _gattServices x
  |}.
Definition with_alias (v : dvalue) (x : t) : t :=
  {|
    _path := _path x; _name := _name x; _icon := _icon x; _class := _class x;
    _appearance := _appearance x; _uuids := _uuids x; _paired := _paired x;
    _connected := _connected x; _trusted := _trusted x; _blocked := _blocked x;
    _alias := v; _adapter := _adapter x; _legacyPairing := _legacyPairing x;
    _modalias := _modalias x; _rssi := _rssi x; _txPower := _txPower x;
    _manufacturerData := _manufacturerData x; _serviceData := _serviceData x;
    _gattServices := _gattServices x
  |}.
Definition with_adapter (v : option Adapter.t) (x : t) : t :=
  {|
    _path := _path x; _name := _name x; _icon := _icon x; _class := _class x;
    _appearance := _appearance x; _uuids := _uuids x; _paired := _paired x;
    _connected := _connected x; _trusted := _trusted x; _blocked := _blocked x;
    _alias := _alias x; _adapter := v; _legacyPairing := _legacyPairing x;
    _modalias := _modalias x; _rssi := _rssi x; _txPower := _txPower x;
    _manufacturerData := _manufacturerData x; _serviceData := _serviceData x;
    _gattServices := _gattServices x
  |}.
Definition with_legacyPairing (v : dvalue) (x : t) : t :=
  {|
    _path := _path x; _name := _name x; _icon := _icon x; _class := _class x;
    _appearance := _appearance x; _uuids := _uuids x; _paired := _paired x;
    _connected := _connected x; _trusted := _trusted x; _blocked := _blocked x;
    _alias := _alias x; _adapter := _adapter x; _legacyPairing := v;
    _modalias := _modalias x; _rssi := _rssi x; _txPower := _txPower x;
    _manufacturerData := _manufacturerData x; _serviceData := _serviceData x;
    _gattServices := _gattServices x
  |}.
Definition with_modalias (v : nullable) (x : t) : t :=
  {|
    _path := _path x; _name := _name x; _icon := _icon x; _class := _class x;
    _appearance := _appearance x; _uuids := _uuids x; _paired := _paired x;
    _connected := _connected x; _trusted := _trusted x; _blocked := _blocked x;
    _alias := _alias x; _adapter := _adapter x; _legacyPairing := _legacyPairing x;
    _modalias := v; _rssi := _rssi x; _txPower := _txPower x;
    _manufacturerData := _manufacturerData x; _serviceData := _serviceData x;
    _gattServices := _gattServices x
  |}.
Definition with_rssi (v : nullable) (x : t) : t :=
  {|
    _path := _path x; _name := _name x; _icon := _icon x; _class := _class x;
    _appearance := _appearance x; _uuids := _uuids x; _paired := _paired x;
    _connected := _connected x; _trusted := _trusted x; _blocked := _blocked x;
    _alias := _alias x; _adapter := _adapter x; _legacyPairing := _legacyPairing x;
    _modalias := _modalias x; _rssi := v; _txPower := _txPower x;
    _manufacturerData := _manufacturerData x; _serviceData := _serviceData x;
    _gattServices := _gattServices x
  |}.
Definition with_txPower (v : nullable) (x : t) : t :=
  {|
    _path := _path x; _name := _name x; _icon := _icon x; _class := _class x;
    _appearance := _appearance x; _uuids := _uuids x; _paired := _paired x;
    _connected := _connected x; _trusted := _trusted x; _blocked := _blocked x;
    _alias := _alias x; _adapter := _adapter x; _legacyPairing := _legacyPairing x;
    _modalias := _modalias x; _rssi := _rssi x; _txPower := v;
    _manufacturerData := _manufacturerData x; _serviceData := _serviceData x;
    _gattServices := _gattServices x
  |}.
Definition with_manufacturerData (v : nullable) (x : t) : t :=
  {|
    _path := _path x; _name := _name x; _icon := _icon x; _class := _class x;
    _appearance := _appearance x; _uuids := _uuids x; _paired := _paired x;
    _connected := _connected x; _trusted := _trusted x; _blocked := _blocked x;
    _alias := _alias x; _adapter := _adapter x; _legacyPairing := _legacyPairing x;
    _modalias := _modalias x; _rssi := _rssi x; _txPower := _txPower x;
    _manufacturerData := v; _serviceData := _serviceData x;
    _gattServices := _gattServices x
  |}.
Definition with_serviceData (v : nullable) (x : t) : t :=
  {|
    _path := _path x; _name := _name x; _icon := _icon x; _class := _class x;
    _appearance := _appearance x; _uuids := _uuids x; _paired := _paired x;
    _connected := _connected x; _trusted := _trusted x; _blocked := _blocked x;
    _alias := _alias x; _adapter := _adapter x; _legacyPairing := _legacyPairing x;
    _modalias := _modalias x; _rssi := _rssi x; _txPower := _txPower x;
    _manufacturerData := _manufacturerData x; _serviceData := v;
    _gattServices := _gattServices x
  |}.
Definition with_gattServices (v : nullable) (x : t) : t :=
  {|
    _path := _path x; _name := _name x; _icon := _icon x; _class := _class x;
    _appearance := _appearance x; _uuids := _uuids x; _paired := _paired x;
    _connected := _connected x; _trusted := _trusted x; _blocked := _blocked x;
    _alias := _alias x; _adapter := _adapter x; _legacyPairing := _legacyPairing x;
    _modalias := _modalias x; _rssi := _rssi x; _txPower := _txPower x;
    _manufacturerData := _manufacturerData x; _serviceData := _serviceData x;
    _gattServices := v
  |}.
(** [new Device(path, data, bus)].  [Adapter.fromPath(data.adapter)] is
    called and its [.then] callback is left to the event loop, so [_adapter]
    is not assigned when the constructor returns. *)
Definition constructor (path : string) (data : Data) : t * list Task :=
  ({| _path := path;
      _name := or_null (name data);
      _icon := or_null (icon data);
      _class := or_null (class data);
      _appearance := or_null (appearance data);
      _uuids := or_null (uuids data);
      _paired := paired data;
      _connected := connected data;
      _trusted := trusted data;
      _blocked := blocked data;
      _alias := alias data;
      _adapter := None;
      _legacyPairing := legacyPairing data;
      _modalias := or_null (modalias data);
      _rssi := or_null (rssi data);
      _txPower := or_null (txPower data);
      _manufacturerData := or_null (manufacturerData data);
      _serviceData := or_null (serviceData data);
      _gattServices := or_null (gattServices data) |},
   [ResolveAdapter (adapter data); ListenForChanges path IFACE]).

(** The event loop settling [ResolveAdapter]: the callback
    [(adapter) => (this._adapter = adapter)] runs when the lookup resolved
    ([Some]); a rejected lookup ([None]) has no handler. *)
Definition resolved (outcome : option Adapter.t) (d : t) : t :=
  match outcome with
  | Some adapter => with_adapter (Some adapter) d
  | None => d
  end.

Definition fromDBusObject (data : string * Bag) : result (t * list Task) :=
  let bag := snd data in
  paired <- required bag "Paired" ;;
  connected <- required bag "Connected" ;;
  trusted <- required bag "Trusted" ;;
  blocked <- required bag "Blocked" ;;
  alias <- required bag "Alias" ;;
  adapter <- required bag "Adapter" ;;
  legacyPairing <- required bag "LegacyPairing" ;;
  Ok (constructor (fst data)
        {| name := optional bag "Name";
           icon := optional bag "Icon";
           class := optional bag "Class";
           appearance := optional bag "Appearance";
           uuids := optional bag "UUIDs";
           paired := paired; connected := connected; trusted := trusted;
           blocked := blocked; alias := alias; adapter := adapter;
           legacyPairing := legacyPairing;
           modalias := optional bag "Modalias";
           rssi := optional bag "RSSI";
           txPower := optional bag "TxPower";
           manufacturerData := optional bag "ManufacturerData";
           serviceData := optional bag "ServiceData";
           gattServices := optional bag "GattServices" |}).

Definition setProperty (prop signature : string) (val : dvalue) (d : t) : Task :=
  PropertySet (_path d) IFACE prop signature val.

Definition set_trusted (v : bool) (d : t) : t * list Task :=
  let d' := with_trusted (DBool v) d in (d', [setProperty "Trusted" "b" (DBool v) d']).
Definition set_blocked (v : bool) (d : t) : t * list Task :=
  let d' := with_blocked (DBool v) d in (d', [setProperty "Blocked" "b" (DBool v) d']).
Definition set_alias (v : string) (d : t) : t * list Task :=
  let d' := with_alias (DStr v) d in (d', [setProperty "Alias" "s" (DStr v) d']).

(** The event loop settling a [PropertySet], as for an Adapter. *)
Definition settled (outcome : result unit) (d : t) : t := d.

(** The [case] labels of the [switch (prop)] that assign synchronously. *)
Inductive Prop_ : Type :=
| Name | Icon | Class | Appearance | UUIDs | Paired | Connected | Trusted
| Blocked | Alias | LegacyPairing | Modalias | RSSI | TxPower
| ManufacturerData | ServiceData | GattServices.

Inductive Case : Type :=
| Field (c : Prop_)   (* a plain assignment *)
| AdapterRef          (* [case 'Adapter']: awaits [Adapter.fromPath] *)
| Default.

Definition case_of (prop : string) : Case :=
  if prop =? "Name" then Field Name
  else if prop =? "Icon" then Field Icon
  else if prop =? "Class" then Field Class
  else if prop =? "Appearance" then Field Appearance
  else if prop =? "UUIDs" then Field UUIDs
  else if prop =? "Paired" then Field Paired
  else if prop =? "Connected" then Field Connected
  else if prop =? "Trusted" then Field Trusted
  else if prop =? "Blocked" then Field Blocked
  else if prop =? "Alias" then Field Alias
  else if prop =? "Adapter" then AdapterRef
  else if prop =? "LegacyPairing" then Field LegacyPairing
  else if prop =? "Modalias" then Field Modalias
  else if prop =? "RSSI" then Field RSSI
  else if prop =? "TxPower" then Field TxPower
  else if prop =? "ManufacturerData" then Field ManufacturerData
  else if prop =? "ServiceData" then Field ServiceData
  else if prop =? "GattServices" then Field GattServices
  else Default.

Definition assign (c : Prop_) (value : dvalue) (d : t) : t :=
  match c with
  | Name => with_name (Val value) d
  | Icon => with_icon (Val value) d
  | Class => with_class (Val value) d
  | Appearance => with_appearance (Val value) d
  | UUIDs => with_uuids (Val value) d
  | Paired => with_paired value d
  | Connected => with_connected value d
  | Trusted => with_trusted value d
  | Blocked => with_blocked value d
  | Alias => with_alias value d
  | LegacyPairing => with_legacyPairing value d
  | Modalias => with_modalias (Val value) d
  | RSSI => with_rssi (Val value) d
  | TxPower => with_txPower (Val value) d
  | ManufacturerData => with_manufacturerData (Val value) d
  | ServiceData => with_serviceData (Val value) d
  | GattServices => with_gattServices (Val value) d
  end.

Definition warning (prop : string) : string :=
  "bluen: Device: Unhandled property change: " ++ prop.

(** How far a run of the [async] listener got. *)
Inductive Status : Type :=
| Returned                 (* the loop ended *)
| Awaiting (path : dvalue) (rest : Bag)
                           (* suspended at [await Adapter.fromPath(path)] *)
| Rejected.                (* the awaited lookup was rejected *)

(** The loop of the listener up to its first [await]: [case 'Adapter']
    calls [Adapter.fromPath(value)] and gives control back to the event
    loop, with the entries not yet visited. *)
Fixpoint loop (d : t) (props : Bag) : t * list Effect * Status :=
  match props with
  | [] => (d, [], Returned)
  | (prop, value) :: rest =>
      match case_of prop with
      | Field c =>
          let '(d', log, st) := loop (assign c value d) rest in
          (d', Emit "change" :: log, st)
      | AdapterRef => (d, [FromPath value], Awaiting value rest)
      | Default =>
          let '(d', log, st) := loop d rest in
          (d', Warn (warning prop) :: log, st)
      end
  end.

(** The event loop resuming a suspended listener with the outcome of the
    lookup: the assignment to [_adapter], [break], [emit], and the rest of
    the loop; a rejection leaves the [async] function. *)
Definition resume (d : t) (outcome : option Adapter.t) (rest : Bag)
  : t * list Effect * Status :=
  match outcome with
  | Some adapter =>
      let '(d', log, st) := loop (with_adapter (Some adapter) d) rest in
      (d', Emit "change" :: log, st)
  | None => (d, [], Rejected)
  end.

(** The ['PropertiesChanged'] listener, up to its first [await]. *)
Definition on_PropertiesChanged (iface : string) (props : Bag) (d : t)
  : t * list Effect * Status :=
  if negb (iface =? IFACE) then (d, [], Returned) else loop d props.

Section Lookup.

(** Modelled from the spec: [Adapter.fromPath], the Adapter-from-path lookup
    of section 4.5, is not part of the sources at hand.  It is taken as the
    outcome the lookup has for each path: the Adapter it resolves to, or
    [None] when it is rejected. *)
Variable fromPath : dvalue -> option Adapter.t.

(** One listener run to its end, every lookup settled by [fromPath] before
    anything else is delivered. *)
Fixpoint run (d : t) (props : Bag) : t * list Effect * Status :=
  match props with
  | [] => (d, [], Returned)
  | (prop, value) :: rest =>
      match case_of prop with
      | Field c =>
          let '(d', log, st) := run (assign c value d) rest in
          (d', Emit "change" :: log, st)
      | AdapterRef =>
          match fromPath value with
          | Some adapter =>
              let '(d', log, st) := run (with_adapter (Some adapter) d) rest in
              (d', FromPath value :: Emit "change" :: log, st)
          | None => (d, [FromPath value], Rejected)
          end
      | Default =>
          let '(d', log, st) := run d rest in
          (d', Warn (warning prop) :: log, st)
      end
  end.

Definition handle (iface : string) (props : Bag) (d : t)
  : t * list Effect * Status :=
  if negb (iface =? IFACE) then (d, [], Returned) else run d props.

End Lookup.

(** [Object.entries(await objManager.GetManagedObjects())]: paths with their
    interfaces and property bags. *)
Definition ManagedObjects : Type := list (string * list (string * Bag)).

(** [Device.allOfAdapter(adapter, bus)], given the reply to its one
    [GetManagedObjects()] call.  [String.prefix p s] is [s.startsWith(p)]. *)
Definition allOfAdapter (adapter : Adapter.t) (reply : result ManagedObjects)
  : result (list (t * list Task)) :=
  managed <- reply ;;
  let objects :=
    map (fun o => (fst o, index (snd o) IFACE))
      (filter (fun o => includes (keys (snd o)) IFACE)
         (filter (fun o => String.prefix (Adapter._path adapter) (fst o)) managed)) in
  map_result
    (fun o =>
       match snd o with
       | Some bag => fromDBusObject (fst o, bag)
       | None => Throw (TypeError "Name")
       end)
    objects.

(** *** Views used to state the properties *)

Definition name_of (c : Prop_) : string :=
  match c with
  | Name => "Name"
  | Icon => "Icon"
  | Class => "Class"
  | Appearance => "Appearance"
  | UUIDs => "UUIDs"
  | Paired => "Paired"
  | Connected => "Connected"
  | Trusted => "Trusted"
  | Blocked => "Blocked"
  | Alias => "Alias"
  | LegacyPairing => "LegacyPairing"
  | Modalias => "Modalias"
  | RSSI => "RSSI"
  | TxPower => "TxPower"
  | ManufacturerData => "ManufacturerData"
  | ServiceData => "ServiceData"
  | GattServices => "GattServices"
  end.

Definition get (c : Prop_) (d : t) : nullable :=
  match c with
  | Name => _name d
  | Icon => _icon d
  | Class => _class d
  | Appearance => _appearance d
  | UUIDs => _uuids d
  | Paired => Val (_paired d)
  | Connected => Val (_connected d)
  | Trusted => Val (_trusted d)
  | Blocked => Val (_blocked d)
  | Alias => Val (_alias d)
  | LegacyPairing => Val (_legacyPairing d)
  | Modalias => _modalias d
  | RSSI => _rssi d
  | TxPower => _txPower d
  | ManufacturerData => _manufacturerData d
  | ServiceData => _serviceData d
  | GattServices => _gattServices d
  end.

Definition required_props : list string :=
  ["Paired"; "Connected"; "Trusted"; "Blocked"; "Alias"; "Adapter"; "LegacyPairing"].

(** The [case] label of a property that is assigned synchronously. *)
Definition field_of (prop : string) : option Prop_ :=
  match case_of prop with
  | Field c => Some c
  | _ => None
  end.

Definition recognized (prop : string) : bool :=
  match case_of prop with Default => false | _ => true end.

(** The effect of one entry of a notification on the fields, when the
    lookup it may trigger has the outcome [fromPath] gives. *)
Definition step (fromPath : dvalue -> option Adapter.t)
    (d : t) (prop : string) (value : dvalue) : t :=
  match case_of prop with
  | Field c => assign c value d
  | AdapterRef => with_adapter (fromPath value) d
  | Default => d
  end.

(** Every adapter path a notification carries resolves. *)
Definition resolves (fromPath : dvalue -> option Adapter.t) (props : Bag) : bool :=
  forallb
    (fun kv =>
       match case_of (fst kv), fromPath (snd kv) with
       | AdapterRef, None => false
       | _, _ => true
       end)
    props.

End Device.

(** ** Battery *)

Module Battery.

Definition IFACE : string := "org.bluez.Battery1".

Record t : Type := {
  _path : string;
  _percentage : dvalue;
  _source : nullable
}.

Record Data : Type := {
  percentage : dvalue;
  source : option dvalue
}.

Definition with_percentage (v : dvalue) (x : t) : t :=
  {|
    _path := _path x; _percentage := v; _source := _source x
  |}.
Definition with_source (v : nullable) (x : t) : t :=
  {|
    _path := _path x; _percentage := _percentage x; _source := v
  |}.
Definition constructor (path : string) (data : Data) : t * list Task :=
  ({| _path := path;
      _percentage := percentage data;
      _source := or_null (source data) |},
   [ListenForChanges path IFACE]).

Definition unsupported : Error :=
  JsError "bluen: Battery: Device does not support battery charge status interface".

(** [Battery.ofDevice(device)], given the reply to [GetManagedObjects()] and
    the outcome [Get interface prop] of each property read. *)
Definition ofDevice (device : Device.t)
    (reply : result Device.ManagedObjects)
    (Get : string -> string -> result dvalue) : result (t * list Task) :=
  objects <- reply ;;
  match index objects (Device._path device) with
  | None => Throw (TypeError "Object.keys")
  | Some object =>
      if negb (includes (keys object) IFACE) then Throw unsupported
      else
        percentage <- Get IFACE "Percentage" ;;
        source <- Get IFACE "Source" ;;
        Ok (constructor (Device._path device)
              {| percentage := percentage; source := Some source |})
  end.

Inductive Prop_ : Type :=
| Percentage | Source.

Definition case_of (prop : string) : option Prop_ :=
  if prop =? "Percentage" then Some Percentage
  else if prop =? "Source" then Some Source
  else None.

Definition assign (c : Prop_) (value : dvalue) (b : t) : t :=
  match c with
  | Percentage => with_percentage value b
  | Source => with_source (Val value) b
  end.

Definition warning (prop : string) : string :=
  "bluen: Battery: Unhandled property change: " ++ prop.

(** The loop of the listener: here nothing is emitted inside the loop, and
    the [continue] of the [default] case only ends the iteration. *)
Fixpoint loop (b : t) (props : Bag) : t * list Effect :=
  match props with
  | [] => (b, [])
  | (prop, value) :: rest =>
      match case_of prop with
      | Some c => loop (assign c value b) rest
      | None =>
          let (b', log) := loop b rest in
          (b', Warn (warning prop) :: log)
      end
  end.

(** The ['PropertiesChanged'] listener: [this.emit('change')] follows the
    loop. *)
Definition on_PropertiesChanged (iface : string) (props : Bag) (b : t)
  : t * list Effect :=
  if negb (iface =? IFACE) then (b, [])
  else let (b', log) := loop b props in (b', log ++ [Emit "change"]).

(** *** Views used to state the properties *)

Definition name_of (c : Prop_) : string :=
  match c with
  | Percentage => "Percentage"
  | Source => "Source"
  end.

Definition get (c : Prop_) (b : t) : nullable :=
  match c with
  | Percentage => Val (_percentage b)
  | Source => _source b
  end.

Definition step (b : t) (prop : string) (value : dvalue) : t :=
  match case_of prop with
  | Some c => assign c value b
  | None => b
  end.

Definition recognized (prop : string) : bool :=
  match case_of prop with Some _ => true | None => false end.

End Battery.

(** ** Notifications as folds *)

(** The fields after the entries of a notification were applied in order. *)
Definition steps {St : Type} (step : St -> string -> dvalue -> St)
    (s : St) (props : Bag) : St :=
  fold_left (fun s kv => step s (fst kv) (snd kv)) props s.

(** The entries of a notification whose names satisfy [keep]. *)
Definition select (keep : string -> bool) (props : Bag) : Bag :=
  filter (fun kv => keep (fst kv)) props.

(** A setter is optimistic: the accessor [read] gives the new value [v] as
    soon as the setter returns, the one thing left to the event loop is the
    remote [call], and whatever the outcome of that call the accessor still
    gives [v]. *)
Definition optimistic {T : Type} (after : T * list Task) (read : T -> dvalue)
    (settled : result unit -> T -> T) (v : dvalue) (call : Task) : Prop :=
  read (fst after) = v /\
  snd after = [call] /\
  forall outcome, read (settled outcome (fst after)) = v.

(** A snapshot has the property [prop]. *)
Definition present (bag : Bag) (prop : string) : Prop := bag_get prop bag <> None.

(** ** Sample objects *)

Definition hci0_bag : Bag :=
  [("Address", DStr "00:1A:7D:DA:71:13"); ("AddressType", DStr "public");
   ("Name", DStr "host"); ("Alias", DStr "host"); ("Class", DNum 0);
   ("Powered", DBool false); ("Discoverable", DBool false);
   ("DiscoverableTimeout", DNum 180); ("Pairable", DBool true);
   ("PairableTimeout", DNum 0); ("Discovering", DBool false);
   ("UUIDs", DArr [])].


Definition adapter_at (path address : string) : Adapter.t :=
  {| Adapter._path := path;
     Adapter._address := DStr address;
     Adapter._name := DStr "host";
     Adapter._alias := DStr "host";
     Adapter._class := DNum 0;
     Adapter._powered := DBool false;
     Adapter._discoverable := DBool false;
     Adapter._pairable := DBool true;
     Adapter._pairableTimeout := DNum 0;
     Adapter._discoverableTimeout := DNum 180;
     Adapter._discovering := DBool false;
     Adapter._uuids := DArr [];
     Adapter._modalias := Null |}.

Definition hci0 : Adapter.t := adapter_at "/org/bluez/hci0" "00:1A:7D:DA:71:13".
Definition hci1 : Adapter.t := adapter_at "/org/bluez/hci1" "00:1A:7D:DA:71:14".

Definition device_bag (address alias adapter : string) : Bag :=
  [("Address", DStr address); ("Alias", DStr alias);
   ("Paired", DBool true); ("Connected", DBool false); ("Trusted", DBool false);
   ("Blocked", DBool false); ("LegacyPairing", DBool false);
   ("Adapter", DStr adapter)].

Definition device_at (path alias : string) : Device.t :=
  {| Device._path := path;
     Device._name := Null;
     Device._icon := Null;
     Device._class := Null;
     Device._appearance := Null;
     Device._uuids := Null;
     Device._paired := DBool true;
     Device._connected := DBool false;
     Device._trusted := DBool false;
     Device._blocked := DBool false;
     Device._alias := DStr alias;
     Device._adapter := None;
     Device._legacyPairing := DBool false;
     Device._modalias := Null;
     Device._rssi := Null;
     Device._txPower := Null;
     Device._manufacturerData := Null;
     Device._serviceData := Null;
     Device._gattServices := Null |}.

Definition headset : Device.t :=
  device_at "/org/bluez/hci0/dev_AA_BB_CC_DD_EE_FF" "Headset".
Definition keyboard : Device.t :=
  device_at "/org/bluez/hci1/dev_11_22_33_44_55_66" "Keyboard".

Definition cell : Battery.t :=
  {| Battery._path := "/org/bluez/hci0/dev_AA_BB_CC_DD_EE_FF";
     Battery._percentage := DNum 80;
     Battery._source := Null |}.

(** A bus with three adapters, [hci0], [hci1] and [hci10], one device under
    each; only the headset under [hci0] reports its battery. *)
Definition managed : Device.ManagedObjects :=
  [("/org/bluez", [("org.bluez.AgentManager1", [])]);
   ("/org/bluez/hci0", [("org.bluez.Adapter1", hci0_bag)]);
   ("/org/bluez/hci0/dev_AA_BB_CC_DD_EE_FF",
    [("org.bluez.Device1",
      device_bag "AA:BB:CC:DD:EE:FF" "Headset" "/org/bluez/hci0");
     ("org.bluez.Battery1", [("Percentage", DNum 80)])]);
   ("/org/bluez/hci1", [("org.bluez.Adapter1", hci0_bag)]);
   ("/org/bluez/hci1/dev_11_22_33_44_55_66",
    [("org.bluez.Device1",
      device_bag "11:22:33:44:55:66" "Keyboard" "/org/bluez/hci1")]);
   ("/org/bluez/hci10", [("org.bluez.Adapter1", hci0_bag)]);
   ("/org/bluez/hci10/dev_77_88_99_AA_BB_CC",
    [("org.bluez.Device1",
      device_bag "77:88:99:AA:BB:CC" "Mouse" "/org/bluez/hci10")])].

(** The replies of a bus whose battery reports 80 percent, measured by the
    HFP profile. *)
Definition battery_get (iface prop : string) : result dvalue :=
  if prop =? "Percentage" then Ok (DNum 80)
  else if prop =? "Source" then Ok (DStr "HFP 1.7")
  else Throw (RemoteError "org.freedesktop.DBus.Error.InvalidArgs").

Definition powered_and_discovering : Bag :=
  [("Powered", DBool true); ("Discovering", DBool true)].

(** Two notifications for the headset: the first moves it to an adapter
    that cannot be looked up and names it, the second moves it to [hci0]. *)
Definition moved_and_named : Bag :=
  [("Adapter", DStr "/org/bluez/hci7"); ("Name", DStr "Speaker")].
Definition moved_back : Bag :=
  [("Adapter", DStr "/org/bluez/hci0")].

(** Two notifications that both set the alias, the first after an adapter
    path. *)
Definition moved_and_aliased : Bag :=
  [("Adapter", DStr "/org/bluez/hci0"); ("Alias", DStr "old")].
Definition aliased : Bag :=
  [("Alias", DStr "new")].

Definition mixed : Bag :=
  [("Connected", DBool true); ("Codec", DStr "aac");
   ("Adapter", DStr "/org/bluez/hci0"); ("Volume", DNum 7);
   ("RSSI", DNum (-60))].

(** A bus on which only [/org/bluez/hci0] resolves to an Adapter. *)
Definition only_hci0 (path : dvalue) : option Adapter.t :=
  match path with
  | DStr p => if p =? "/org/bluez/hci0" then Some hci0 else None
  | _ => None
  end.

(** ** Bluez (the [Bluez] class of [src/lib/bluez.ts]) *)

Module Bluez.

(** [getAdapters()], given the reply to its [GetManagedObjects()] call. *)
Definition getAdapters (reply : result Device.ManagedObjects)
  : result (list (Adapter.t * list Task)) :=
  objects <- reply ;;
  map_result
    (fun entry =>
       match snd entry with
       | Some bag => Adapter.fromDBusObject (fst entry, bag)
       | None => Throw (TypeError "Address")
       end)
    (map (fun o => (fst o, index (snd o) Adapter.IFACE))
       (filter (fun o => includes (keys (snd o)) Adapter.IFACE) objects)).

End Bluez.

(** ** Further views *)

(** The managed objects that expose [iface], with the snapshot they have for
    it. *)
Definition exposing (iface : string) (objects : Device.ManagedObjects)
  : list (string * Bag) :=
  flat_map
    (fun o =>
       match index (snd o) iface with
       | Some bag => [(fst o, bag)]
       | None => []
       end)
    objects.

(** The managed objects [Device.allOfAdapter] looks at: those whose path
    has the adapter's path as a string prefix. *)
Definition under (adapter : Adapter.t) (objects : Device.ManagedObjects)
  : Device.ManagedObjects :=
  filter (fun o => String.prefix (Adapter._path adapter) (fst o)) objects.

(** The entries of a notification up to, and without, the first adapter path
    whose lookup is rejected. *)
Fixpoint accepted (fromPath : dvalue -> option Adapter.t) (props : Bag) : Bag :=
  match props with
  | [] => []
  | (prop, value) :: rest =>
      match Device.case_of prop, fromPath value with
      | Device.AdapterRef, None => []
      | _, _ => (prop, value) :: accepted fromPath rest
      end
  end.

(** A notification has no adapter path. *)
Definition plain (props : Bag) : Prop := bag_get "Adapter" props = None.

(** The value of a field written locally as [v] once the notification [N]
    was applied. *)
Definition overwritten (N : Bag) (prop : string) (v : dvalue) : dvalue :=
  match bag_get prop N with
  | Some w => w
  | None => v
  end.

(** A field after a notification: the value the notification has for its
    property, or else what it was. *)
Definition updated (N : Bag) (prop : string) (before : nullable) : nullable :=
  match bag_get prop N with
  | Some w => Val w
  | None => before
  end.

(** * Properties *)

(** ** Property bags *)

Lemma includes_In (ks : list string) (k : string) : includes ks k = true <-> In k ks.
Proof.
  unfold includes. rewrite existsb_exists. split.
  - intros (x & Hx & E). apply String.eqb_eq in E. now subst.
  - intros H. exists k. split; [assumption|apply String.eqb_refl].
Qed.

Lemma bag_get_None (prop : string) (bag : Bag) :
  bag_get prop bag = None <-> ~ In prop (keys bag).
Proof.
  induction bag as [|[k v] rest IH]; simpl.
  - tauto.
  - destruct (String.eqb_spec k prop) as [->|Hne].
    + split; [discriminate|]. intros H. exfalso. apply H. now left.
    + rewrite IH. tauto.
Qed.

Lemma keys_bag_set (bag : Bag) (prop : string) (v : dvalue) :
  keys (bag_set bag prop v) =
  if includes (keys bag) prop then keys bag else keys bag ++ [prop].
Proof.
  induction bag as [|[k w] rest IH]; simpl; [reflexivity|].
  unfold includes in *. simpl. rewrite (String.eqb_sym prop k).
  destruct (String.eqb_spec k prop) as [->|Hne]; simpl; [reflexivity|].
  rewrite IH. now destruct (existsb (String.eqb prop) (keys rest)).
Qed.

Lemma wf_bag_set (bag : Bag) (prop : string) (v : dvalue) :
  wf_bag bag -> wf_bag (bag_set bag prop v).
Proof.
  unfold wf_bag. intros Hnd. rewrite keys_bag_set.
  destruct (includes (keys bag) prop) eqn:E; [assumption|].
  assert (Hnot : ~ In prop (keys bag)).
  { intros Hin. apply includes_In in Hin. congruence. }
  apply NoDup_app; [assumption|repeat constructor; simpl; tauto|].
  intros a Ha [<-|[]]. now apply Hnot.
Qed.

Lemma wf_bag_union (n n' : Bag) : wf_bag n -> wf_bag (bag_union n n').
Proof.
  unfold bag_union. revert n.
  induction n' as [|[k v] rest IH]; simpl; intros n Hn; [assumption|].
  apply IH. now apply wf_bag_set.
Qed.

Lemma In_bag_set (bag : Bag) (prop : string) (v : dvalue) (kv : string * dvalue) :
  In kv (bag_set bag prop v) -> In kv bag \/ kv = (prop, v).
Proof.
  induction bag as [|[k w] rest IH]; simpl.
  - intros [<-|[]]. now right.
  - destruct (String.eqb_spec k prop) as [->|Hne]; simpl.
    + intros [<-|H]; [now right|left; now right].
    + intros [<-|H]; [left; now left|].
      destruct (IH H) as [H'|H']; [left; now right|now right].
Qed.

Lemma In_bag_union (n n' : Bag) (kv : string * dvalue) :
  In kv (bag_union n n') -> In kv n \/ In kv n'.
Proof.
  unfold bag_union. revert n.
  induction n' as [|[k v] rest IH]; simpl; intros n H; [now left|].
  destruct (IH _ H) as [H'|H']; [|right; now right].
  destruct (In_bag_set _ _ _ _ H') as [Hn | ->]; [now left|right; now left].
Qed.

Lemma bag_get_bag_set (bag : Bag) (prop k : string) (v : dvalue) :
  bag_get k (bag_set bag prop v) = if prop =? k then Some v else bag_get k bag.
Proof.
  induction bag as [|[q w] rest IH]; simpl.
  - now destruct (prop =? k).
  - destruct (String.eqb_spec q prop) as [->|Hne]; simpl.
    + now destruct (prop =? k).
    + rewrite IH. destruct (String.eqb_spec q k) as [->|Hk]; [|reflexivity].
      apply String.eqb_neq in Hne. rewrite String.eqb_sym in Hne. now rewrite Hne.
Qed.

(** [bag_union] is the field-wise union in which the second bag wins. *)
Lemma bag_get_union (n n' : Bag) (k : string) :
  wf_bag n' ->
  bag_get k (bag_union n n') =
  match bag_get k n' with
  | Some v => Some v
  | None => bag_get k n
  end.
Proof.
  unfold bag_union, wf_bag. revert n.
  induction n' as [|[q w] rest IH]; simpl; intros n Hnd; [reflexivity|].
  inversion Hnd as [|? ? Hq Hrest]; subst.
  rewrite (IH _ Hrest), bag_get_bag_set.
  destruct (String.eqb_spec q k) as [->|Hne]; [|reflexivity].
  apply bag_get_None in Hq. now rewrite Hq.
Qed.

(** ** Last write wins, for any entity whose entries act independently *)

Section LastWriteWins.

Context {St : Type}.
Variable step : St -> string -> dvalue -> St.

(** Two writes of one property: the second replaces the first. *)
Hypothesis step_overwrite :
  forall s k v w, step (step s k v) k w = step s k w.

(** Writes of different properties do not interfere. *)
Hypothesis step_commute :
  forall s k q v w, k <> q -> step (step s k v) q w = step (step s q w) k v.

Lemma steps_absent (k : string) (v : dvalue) (b : Bag) :
  ~ In k (keys b) ->
  forall s, steps step (step s k v) b = step (steps step s b) k v.
Proof.
  induction b as [|[q w] rest IH]; simpl; intros Hk s; [reflexivity|].
  rewrite step_commute by (intros ->; apply Hk; now left).
  apply IH. intros Hin. apply Hk. now right.
Qed.

Lemma steps_bag_set (k : string) (v : dvalue) (b : Bag) :
  wf_bag b ->
  forall s, steps step s (bag_set b k v) = step (steps step s b) k v.
Proof.
  unfold wf_bag.
  induction b as [|[q w] rest IH]; simpl; intros Hnd s; [reflexivity|].
  inversion Hnd as [|? ? Hq Hrest]; subst.
  destruct (String.eqb_spec q k) as [->|Hne]; simpl.
  - rewrite <- (steps_absent k v rest Hq). now rewrite step_overwrite.
  - now apply IH.
Qed.

Lemma steps_union (n n' : Bag) :
  wf_bag n ->
  forall s, steps step s (bag_union n n') = steps step (steps step s n) n'.
Proof.
  unfold bag_union. revert n.
  induction n' as [|[k v] rest IH]; simpl; intros n Hn s; [reflexivity|].
  fold (steps step (step (steps step s n) k v) rest).
  rewrite <- (steps_bag_set k v n Hn s).
  apply (IH (bag_set n k v)). now apply wf_bag_set.
Qed.

(** What a well-formed notification leaves in a field is what was written
    for the value it carries. *)
Variables Field R : Type.
Variable read : Field -> St -> R.
Variable field_of : string -> option Field.
Variable written : dvalue -> R.

Hypothesis read_same :
  forall s k v f, field_of k = Some f -> read f (step s k v) = written v.
Hypothesis read_other :
  forall s k q v f, field_of k = Some f -> k <> q ->
    read f (step s q v) = read f s.

Lemma steps_read_absent (k : string) (f : Field) (b : Bag) :
  field_of k = Some f -> ~ In k (keys b) ->
  forall s, read f (steps step s b) = read f s.
Proof.
  intros Hf. induction b as [|[q w] rest IH]; simpl; intros Hk s; [reflexivity|].
  rewrite IH by tauto.
  apply (read_other s k q w f Hf). intros ->. apply Hk. now left.
Qed.

Lemma steps_read (k : string) (v : dvalue) (f : Field) (b : Bag) :
  wf_bag b -> In (k, v) b -> field_of k = Some f ->
  forall s, read f (steps step s b) = written v.
Proof.
  unfold wf_bag. intros Hnd Hin Hf.
  induction b as [|[q w] rest IH]; simpl in *; intros s; [contradiction|].
  inversion Hnd as [|? ? Hq Hrest]; subst.
  destruct Hin as [E|Hin].
  - inversion E; subst.
    rewrite (steps_read_absent k f rest Hf Hq). now apply read_same.
  - now apply IH.
Qed.

End LastWriteWins.

(** ** Logs *)

Lemma emitted_cons_emit (log : list Effect) :
  emitted (Emit "change" :: log) = S (emitted log).
Proof. reflexivity. Qed.

Lemma emitted_cons_warn (m : string) (log : list Effect) :
  emitted (Warn m :: log) = emitted log.
Proof. reflexivity. Qed.

Lemma emitted_cons_lookup (p : dvalue) (log : list Effect) :
  emitted (FromPath p :: log) = emitted log.
Proof. reflexivity. Qed.

Lemma warnings_cons_warn (m : string) (log : list Effect) :
  warnings (Warn m :: log) = m :: warnings log.
Proof. reflexivity. Qed.

Lemma warnings_cons_emit (e : string) (log : list Effect) :
  warnings (Emit e :: log) = warnings log.
Proof. reflexivity. Qed.

Lemma warnings_cons_lookup (p : dvalue) (log : list Effect) :
  warnings (FromPath p :: log) = warnings log.
Proof. reflexivity. Qed.

Lemma warnings_app (l1 l2 : list Effect) :
  warnings (l1 ++ l2) = warnings l1 ++ warnings l2.
Proof. unfold warnings. apply flat_map_app. Qed.

Lemma select_cons (keep : string -> bool) (k : string) (v : dvalue) (rest : Bag) :
  select keep ((k, v) :: rest) =
  if keep k then (k, v) :: select keep rest else select keep rest.
Proof. reflexivity. Qed.

Lemma unrecognized_cons (keep : string -> bool) (k : string) (ks : list string) :
  unrecognized keep (k :: ks) =
  if keep k then unrecognized keep ks else k :: unrecognized keep ks.
Proof. unfold unrecognized. simpl. now destruct (keep k). Qed.

Lemma lookups_cons_warn (m : string) (log : list Effect) :
  lookups (Warn m :: log) = lookups log.
Proof. reflexivity. Qed.

Lemma lookups_cons_emit (e : string) (log : list Effect) :
  lookups (Emit e :: log) = lookups log.
Proof. reflexivity. Qed.

Lemma lookups_cons_lookup (p : dvalue) (log : list Effect) :
  lookups (FromPath p :: log) = p :: lookups log.
Proof. reflexivity. Qed.

Lemma steps_cons {St : Type} (step : St -> string -> dvalue -> St)
    (s : St) (k : string) (v : dvalue) (rest : Bag) :
  steps step s ((k, v) :: rest) = steps step (step s k v) rest.
Proof. reflexivity. Qed.

Lemma emitted_app (l1 l2 : list Effect) :
  emitted (l1 ++ l2) = emitted l1 + emitted l2.
Proof. unfold emitted. now rewrite filter_app, length_app. Qed.

(** Splits the [if prop =? "..." then ... else ...] chain of a [switch]. *)
Ltac switch_cases :=
  repeat match goal with
    | |- context [if ?p =? ?s then _ else _] =>
        destruct (String.eqb_spec p s); [subst|]
    end.

(** ** Adapter *)

Section AdapterFacts.
Import Adapter.

Lemma Adapter_case_of_name_of (c : Prop_) : case_of (name_of c) = Some c.
Proof. destruct c; reflexivity. Qed.

Lemma Adapter_case_of_Some (prop : string) (c : Prop_) :
  case_of prop = Some c -> prop = name_of c.
Proof.
  unfold case_of. switch_cases; intros E; inversion E; reflexivity.
Qed.

Lemma Adapter_step_overwrite (a : t) (k : string) (v w : dvalue) :
  step (step a k v) k w = step a k w.
Proof.
  unfold step. destruct (case_of k) as [c|]; [|reflexivity].
  destruct c; reflexivity.
Qed.

Lemma Adapter_step_commute (a : t) (k q : string) (v w : dvalue) :
  k <> q -> step (step a k v) q w = step (step a q w) k v.
Proof.
  unfold step. intros Hne.
  destruct (case_of k) as [c|] eqn:Ek, (case_of q) as [c'|] eqn:Eq;
    try reflexivity.
  apply Adapter_case_of_Some in Ek, Eq. subst.
  destruct c, c'; try reflexivity; now elim Hne.
Qed.

Lemma Adapter_get_same (a : t) (k : string) (v : dvalue) (c : Prop_) :
  case_of k = Some c -> get c (step a k v) = Val v.
Proof. unfold step. intros ->. destruct c; reflexivity. Qed.

Lemma Adapter_get_other (a : t) (k q : string) (v : dvalue) (c : Prop_) :
  case_of k = Some c -> k <> q -> get c (step a q v) = get c a.
Proof.
  unfold step. intros Ek Hne.
  destruct (case_of q) as [c'|] eqn:Eq; [|reflexivity].
  apply Adapter_case_of_Some in Ek, Eq. subst.
  destruct c, c'; try reflexivity; now elim Hne.
Qed.

Lemma Adapter_loop_cons (prop : string) (value : dvalue) (rest : Bag) (a : t) :
  loop a ((prop, value) :: rest) =
  match case_of prop with
  | Some c =>
      (fst (loop (assign c value a) rest),
       Emit "change" :: snd (loop (assign c value a) rest))
  | None => (fst (loop a rest), Warn (warning prop) :: snd (loop a rest))
  end.
Proof.
  simpl. destruct (case_of prop) as [c|].
  - now destruct (loop (assign c value a) rest).
  - now destruct (loop a rest).
Qed.

Lemma Adapter_loop_fields (changed : Bag) (a : t) :
  fst (loop a changed) = steps step a changed.
Proof.
  revert a. induction changed as [|[prop value] rest IH]; intros a;
    [reflexivity|].
  rewrite Adapter_loop_cons, steps_cons. unfold step at 2.
  destruct (case_of prop) as [c|]; apply IH.
Qed.

Lemma Adapter_loop_emitted (changed : Bag) (a : t) :
  emitted (snd (loop a changed)) = length (select recognized changed).
Proof.
  revert a. induction changed as [|[prop value] rest IH]; intros a;
    [reflexivity|].
  rewrite Adapter_loop_cons, select_cons. unfold recognized at 1.
  destruct (case_of prop) as [c|]; cbn [snd length].
  - now rewrite emitted_cons_emit, IH.
  - now rewrite emitted_cons_warn, IH.
Qed.

Lemma Adapter_loop_warnings (changed : Bag) (a : t) :
  warnings (snd (loop a changed)) =
  map warning (unrecognized recognized (keys changed)).
Proof.
  revert a. induction changed as [|[prop value] rest IH]; intros a;
    [reflexivity|].
  rewrite Adapter_loop_cons. cbn [keys map fst]. rewrite unrecognized_cons.
  unfold recognized at 1.
  destruct (case_of prop) as [c|]; cbn [snd map].
  - rewrite warnings_cons_emit. apply IH.
  - rewrite warnings_cons_warn. f_equal. apply IH.
Qed.

Lemma Adapter_loop_select (changed : Bag) (a : t) :
  fst (loop a (select recognized changed)) = fst (loop a changed).
Proof.
  revert a. induction changed as [|[prop value] rest IH]; intros a;
    [reflexivity|].
  rewrite select_cons, (Adapter_loop_cons prop value rest). unfold recognized at 1.
  destruct (case_of prop) as [c|] eqn:E; cbn [fst].
  - rewrite Adapter_loop_cons, E. apply IH.
  - apply IH.
Qed.

Lemma Adapter_fromDBusObject_Ok (path : string) (bag : Bag) (a : t) (tasks : list Task) :
  fromDBusObject (path, bag) = Ok (a, tasks) ->
  _path a = path /\
  Forall (present bag) required_props /\
  forall c, get c a = or_null (bag_get (name_of c) bag).
Proof.
  unfold fromDBusObject, required, optional, required_props, present. simpl.
  repeat match goal with
    | |- context [bag_get ?p bag] =>
        lazymatch p with
        | "Modalias" => fail
        | _ => destruct (bag_get p bag) eqn:?; simpl; [|discriminate]
        end
    end.
  intros E. inversion E; subst; clear E. simpl.
  split; [reflexivity|]. split.
  - repeat constructor; congruence.
  - intros c. destruct c; simpl; try reflexivity;
      match goal with
      | H : bag_get ?p bag = Some _ |- context [bag_get ?p bag] => now rewrite H
      end.
Qed.

Lemma Adapter_fromDBusObject_Throw (path : string) (bag : Bag) :
  ~ Forall (present bag) required_props ->
  exists prop, In prop required_props /\ bag_get prop bag = None /\
    fromDBusObject (path, bag) = Throw (TypeError prop).
Proof.
  unfold fromDBusObject, required, optional, required_props, present. simpl.
  intros Hmiss.
  repeat match goal with
    | |- context [bag_get ?p bag] =>
        lazymatch p with
        | "Modalias" => fail
        | _ =>
            destruct (bag_get p bag) eqn:?; simpl;
            [|exists p; simpl; intuition congruence]
        end
    end.
  exfalso. apply Hmiss. repeat constructor; congruence.
Qed.

Lemma Adapter_fromDBusObject_total (path : string) (bag : Bag) :
  Forall (present bag) required_props ->
  exists r, fromDBusObject (path, bag) = Ok r.
Proof.
  intros H. destruct (fromDBusObject (path, bag)) as [r|e] eqn:E; [now exists r|].
  exfalso. revert E.
  unfold required_props, present in H.
  repeat match type of H with
    | Forall _ (_ :: _) => apply Forall_cons_iff in H; destruct H as [? H]
    end.
  unfold fromDBusObject, required. simpl.
  repeat match goal with
    | |- context [match bag_get ?p bag with _ => _ end] =>
        destruct (bag_get p bag) eqn:?; simpl; [|congruence]
    end.
  discriminate.
Qed.

End AdapterFacts.

(** ** Device *)

Section DeviceFacts.
Import Device.

Lemma Device_case_of_name_of (c : Prop_) : case_of (name_of c) = Field c.
Proof. destruct c; reflexivity. Qed.

Lemma Device_case_of_Field (prop : string) (c : Prop_) :
  case_of prop = Field c -> prop = name_of c.
Proof.
  unfold case_of. switch_cases; intros E; inversion E; reflexivity.
Qed.

Lemma Device_case_of_AdapterRef (prop : string) :
  case_of prop = AdapterRef <-> prop = "Adapter".
Proof.
  split; [|now intros ->].
  unfold case_of. switch_cases; intros E; inversion E; reflexivity.
Qed.

Section Lookup.

Variable fromPath : dvalue -> option Adapter.t.

Lemma Device_step_overwrite (d : t) (k : string) (v w : dvalue) :
  step fromPath (step fromPath d k v) k w = step fromPath d k w.
Proof.
  unfold step. destruct (case_of k) as [c| |]; try reflexivity.
  destruct c; reflexivity.
Qed.

Lemma Device_step_commute (d : t) (k q : string) (v w : dvalue) :
  k <> q ->
  step fromPath (step fromPath d k v) q w = step fromPath (step fromPath d q w) k v.
Proof.
  unfold step. intros Hne.
  destruct (case_of k) as [c| |] eqn:Ek, (case_of q) as [c'| |] eqn:Eq;
    try reflexivity.
  - apply Device_case_of_Field in Ek, Eq. subst.
    destruct c, c'; try reflexivity; now elim Hne.
  - destruct c; reflexivity.
  - destruct c'; reflexivity.
  - apply Device_case_of_AdapterRef in Ek, Eq. subst. now elim Hne.
Qed.

Lemma Device_get_same (d : t) (k : string) (v : dvalue) (c : Prop_) :
  field_of k = Some c -> get c (step fromPath d k v) = Val v.
Proof.
  unfold field_of, step. destruct (case_of k) as [c'| |]; try discriminate.
  intros E. inversion E; subst. destruct c; reflexivity.
Qed.

Lemma Device_get_other (d : t) (k q : string) (v : dvalue) (c : Prop_) :
  field_of k = Some c -> k <> q -> get c (step fromPath d q v) = get c d.
Proof.
  unfold field_of, step. destruct (case_of k) as [c0| |] eqn:Ek; try discriminate.
  intros E Hne. inversion E; subst.
  destruct (case_of q) as [c'| |] eqn:Eq; try reflexivity.
  apply Device_case_of_Field in Ek, Eq. subst.
  destruct c, c'; try reflexivity; now elim Hne.
Qed.

Lemma Device_adapter_same (d : t) (v : dvalue) :
  _adapter (step fromPath d "Adapter" v) = fromPath v.
Proof. reflexivity. Qed.

Lemma Device_adapter_other (d : t) (q : string) (v : dvalue) :
  q <> "Adapter" -> _adapter (step fromPath d q v) = _adapter d.
Proof.
  unfold step. intros Hne. destruct (case_of q) as [c| |] eqn:Eq; try reflexivity.
  - destruct c; reflexivity.
  - apply Device_case_of_AdapterRef in Eq. contradiction.
Qed.

Lemma Device_run_cons (prop : string) (value : dvalue) (rest : Bag) (d : t) :
  run fromPath d ((prop, value) :: rest) =
  match case_of prop with
  | Field c =>
      let r := run fromPath (assign c value d) rest in
      (fst (fst r), Emit "change" :: snd (fst r), snd r)
  | AdapterRef =>
      match fromPath value with
      | Some adapter =>
          let r := run fromPath (with_adapter (Some adapter) d) rest in
          (fst (fst r), FromPath value :: Emit "change" :: snd (fst r), snd r)
      | None => (d, [FromPath value], Rejected)
      end
  | Default =>
      let r := run fromPath d rest in
      (fst (fst r), Warn (warning prop) :: snd (fst r), snd r)
  end.
Proof.
  simpl. destruct (case_of prop) as [c| |].
  - now destruct (run fromPath (assign c value d) rest) as [[d' log] st].
  - destruct (fromPath value) as [adapter|]; [|reflexivity].
    now destruct (run fromPath (with_adapter (Some adapter) d) rest)
      as [[d' log] st].
  - now destruct (run fromPath d rest) as [[d' log] st].
Qed.

Lemma Device_resolves_cons (prop : string) (value : dvalue) (rest : Bag) :
  resolves fromPath ((prop, value) :: rest) =
  match case_of prop, fromPath value with
  | AdapterRef, None => false
  | _, _ => resolves fromPath rest
  end.
Proof.
  unfold resolves. simpl.
  now destruct (case_of prop), (fromPath value).
Qed.

(** A run in which every lookup resolves ends normally and is the fold of
    [step]. *)
Lemma Device_run_resolves (props : Bag) (d : t) :
  resolves fromPath props = true ->
  fst (fst (run fromPath d props)) = steps (step fromPath) d props /\
  snd (run fromPath d props) = Returned /\
  emitted (snd (fst (run fromPath d props))) = length (select recognized props) /\
  warnings (snd (fst (run fromPath d props))) =
    map warning (unrecognized recognized (keys props)) /\
  lookups (snd (fst (run fromPath d props))) =
    map snd (select (fun prop => prop =? "Adapter") props).
Proof.
  revert d. induction props as [|[prop value] rest IH]; intros d.
  - intros _. repeat split; reflexivity.
  - rewrite Device_run_cons, Device_resolves_cons, steps_cons, !select_cons.
    cbn [keys map fst]. rewrite unrecognized_cons.
    assert (Hn : case_of prop <> AdapterRef -> (prop =? "Adapter") = false).
    { intros Hc. apply String.eqb_neq. intros ->. now apply Hc. }
    unfold step at 2.
    destruct (case_of prop) as [c| |] eqn:E.
    + assert (R : recognized prop = true) by (unfold recognized; now rewrite E).
      rewrite R, Hn by discriminate.
      intros H. destruct (IH (assign c value d) H) as (H1 & H2 & H3 & H4 & H5).
      cbn [fst snd length].
      rewrite emitted_cons_emit, warnings_cons_emit, lookups_cons_emit.
      repeat split; try assumption; now f_equal.
    + assert (R : recognized prop = true) by (unfold recognized; now rewrite E).
      apply Device_case_of_AdapterRef in E. subst prop.
      rewrite R, String.eqb_refl.
      destruct (fromPath value) as [adapter|]; [|discriminate].
      intros H.
      destruct (IH (with_adapter (Some adapter) d) H) as (H1 & H2 & H3 & H4 & H5).
      cbn [fst snd length map].
      rewrite emitted_cons_lookup, emitted_cons_emit.
      rewrite warnings_cons_lookup, warnings_cons_emit.
      rewrite lookups_cons_lookup, lookups_cons_emit.
      repeat split; try assumption; now f_equal.
    + assert (R : recognized prop = false) by (unfold recognized; now rewrite E).
      rewrite R, Hn by discriminate.
      intros H. destruct (IH d H) as (H1 & H2 & H3 & H4 & H5).
      cbn [fst snd length map].
      rewrite emitted_cons_warn, warnings_cons_warn, lookups_cons_warn.
      repeat split; try assumption; now f_equal.
Qed.

(** Unrecognized entries change neither the fields a run ends with nor how
    it ends, nor the events raised. *)
Lemma Device_run_select (props : Bag) (d : t) :
  fst (fst (run fromPath d (select recognized props))) =
    fst (fst (run fromPath d props)) /\
  snd (run fromPath d (select recognized props)) = snd (run fromPath d props) /\
  emitted (snd (fst (run fromPath d (select recognized props)))) =
    emitted (snd (fst (run fromPath d props))).
Proof.
  revert d. induction props as [|[prop value] rest IH]; intros d.
  - repeat split; reflexivity.
  - rewrite select_cons, (Device_run_cons prop value rest).
    destruct (case_of prop) as [c| |] eqn:E.
    + assert (R : recognized prop = true) by (unfold recognized; now rewrite E).
      rewrite R, Device_run_cons, E. cbn [fst snd].
      destruct (IH (assign c value d)) as (H1 & H2 & H3).
      rewrite !emitted_cons_emit. repeat split; congruence.
    + assert (R : recognized prop = true) by (unfold recognized; now rewrite E).
      rewrite R, Device_run_cons, E.
      destruct (fromPath value) as [adapter|]; [|repeat split; reflexivity].
      cbn [fst snd].
      destruct (IH (with_adapter (Some adapter) d)) as (H1 & H2 & H3).
      rewrite !emitted_cons_lookup, !emitted_cons_emit.
      repeat split; congruence.
    + assert (R : recognized prop = false) by (unfold recognized; now rewrite E).
      rewrite R. cbn [fst snd]. destruct (IH d) as (H1 & H2 & H3).
      rewrite emitted_cons_warn. repeat split; congruence.
Qed.

(** [run] is [loop], resumed with the outcome of the lookup at every
    [await]. *)
Lemma Device_run_loop (props : Bag) (d : t) :
  run fromPath d props =
  match loop d props with
  | (d1, log1, Awaiting path rest) =>
      match fromPath path with
      | Some adapter =>
          let '(d2, log2, st) := run fromPath (with_adapter (Some adapter) d1) rest in
          (d2, log1 ++ Emit "change" :: log2, st)
      | None => (d1, log1, Rejected)
      end
  | finished => finished
  end.
Proof.
  revert d. induction props as [|[prop value] rest IH]; intros d; simpl;
    [reflexivity|].
  destruct (case_of prop) as [c| |].
  - rewrite (IH (assign c value d)).
    destruct (loop (assign c value d) rest) as [[d1 log1] [| path rest' |]];
      try reflexivity.
    destruct (fromPath path) as [adapter|]; [|reflexivity].
    now destruct (run fromPath (with_adapter (Some adapter) d1) rest')
      as [[d2 log2] st].
  - destruct (fromPath value) as [adapter|]; [|reflexivity].
    now destruct (run fromPath (with_adapter (Some adapter) d) rest)
      as [[d2 log2] st].
  - rewrite (IH d).
    destruct (loop d rest) as [[d1 log1] [| path rest' |]]; try reflexivity.
    destruct (fromPath path) as [adapter|]; [|reflexivity].
    now destruct (run fromPath (with_adapter (Some adapter) d1) rest')
      as [[d2 log2] st].
Qed.

Lemma Device_resolves_In (props : Bag) :
  resolves fromPath props = true <->
  forall v, In ("Adapter", v) props -> fromPath v <> None.
Proof.
  unfold resolves. rewrite forallb_forall. split.
  - intros H v Hin. specialize (H _ Hin). simpl in H.
    destruct (fromPath v); [discriminate|discriminate H].
  - intros H [k v] Hin. simpl.
    destruct (case_of k) eqn:E; try reflexivity.
    apply Device_case_of_AdapterRef in E. subst.
    specialize (H v Hin). now destruct (fromPath v).
Qed.

Lemma Device_resolves_union (n n' : Bag) :
  resolves fromPath n = true -> resolves fromPath n' = true ->
  resolves fromPath (bag_union n n') = true.
Proof.
  rewrite !Device_resolves_In. intros H H' v Hin.
  destruct (In_bag_union _ _ _ Hin); auto.
Qed.

End Lookup.

Lemma Device_fromDBusObject_Ok (path : string) (bag : Bag) (d : t) (tasks : list Task) :
  fromDBusObject (path, bag) = Ok (d, tasks) ->
  _path d = path /\
  Forall (present bag) required_props /\
  (forall c, get c d = or_null (bag_get (name_of c) bag)) /\
  _adapter d = None /\
  exists v, bag_get "Adapter" bag = Some v /\
    tasks = [ResolveAdapter v; ListenForChanges path IFACE].
Proof.
  unfold fromDBusObject, required, optional, required_props, present. simpl.
  repeat match goal with
    | |- context [match bag_get ?p bag with _ => _ end] =>
        destruct (bag_get p bag) eqn:?; simpl; [|discriminate]
    end.
  intros E. inversion E; subst; clear E. simpl.
  split; [reflexivity|]. split; [|split; [|split]].
  - repeat constructor; congruence.
  - intros c. destruct c; simpl; try reflexivity;
      match goal with
      | H : bag_get ?p bag = Some _ |- context [bag_get ?p bag] => now rewrite H
      end.
  - reflexivity.
  - eexists. split; reflexivity.
Qed.

Lemma Device_fromDBusObject_Throw (path : string) (bag : Bag) :
  ~ Forall (present bag) required_props ->
  exists prop, In prop required_props /\ bag_get prop bag = None /\
    fromDBusObject (path, bag) = Throw (TypeError prop).
Proof.
  unfold fromDBusObject, required, optional, required_props, present. simpl.
  intros Hmiss.
  repeat match goal with
    | |- context [match bag_get ?p bag with _ => _ end] =>
        destruct (bag_get p bag) eqn:?; simpl;
        [|exists p; simpl; intuition congruence]
    end.
  exfalso. apply Hmiss. repeat constructor; congruence.
Qed.

Lemma Device_fromDBusObject_total (path : string) (bag : Bag) :
  Forall (present bag) required_props ->
  exists r, fromDBusObject (path, bag) = Ok r.
Proof.
  intros H. destruct (fromDBusObject (path, bag)) as [r|e] eqn:E; [now exists r|].
  exfalso. revert E.
  unfold required_props, present in H.
  repeat match type of H with
    | Forall _ (_ :: _) => apply Forall_cons_iff in H; destruct H as [? H]
    end.
  unfold fromDBusObject, required. simpl.
  repeat match goal with
    | |- context [match bag_get ?p bag with _ => _ end] =>
        destruct (bag_get p bag) eqn:?; simpl; [|congruence]
    end.
  discriminate.
Qed.

End DeviceFacts.

(** ** Battery *)

Section BatteryFacts.
Import Battery.

Lemma Battery_case_of_Some (prop : string) (c : Prop_) :
  case_of prop = Some c -> prop = name_of c.
Proof.
  unfold case_of. switch_cases; intros E; inversion E; reflexivity.
Qed.

Lemma Battery_step_overwrite (b : t) (k : string) (v w : dvalue) :
  step (step b k v) k w = step b k w.
Proof.
  unfold step. destruct (case_of k) as [c|]; [|reflexivity].
  destruct c; reflexivity.
Qed.

Lemma Battery_step_commute (b : t) (k q : string) (v w : dvalue) :
  k <> q -> step (step b k v) q w = step (step b q w) k v.
Proof.
  unfold step. intros Hne.
  destruct (case_of k) as [c|] eqn:Ek, (case_of q) as [c'|] eqn:Eq;
    try reflexivity.
  apply Battery_case_of_Some in Ek, Eq. subst.
  destruct c, c'; try reflexivity; now elim Hne.
Qed.

Lemma Battery_get_same (b : t) (k : string) (v : dvalue) (c : Prop_) :
  case_of k = Some c -> get c (step b k v) = Val v.
Proof. unfold step. intros ->. destruct c; reflexivity. Qed.

Lemma Battery_get_other (b : t) (k q : string) (v : dvalue) (c : Prop_) :
  case_of k = Some c -> k <> q -> get c (step b q v) = get c b.
Proof.
  unfold step. intros Ek Hne.
  destruct (case_of q) as [c'|] eqn:Eq; [|reflexivity].
  apply Battery_case_of_Some in Ek, Eq. subst.
  destruct c, c'; try reflexivity; now elim Hne.
Qed.

Lemma Battery_loop_cons (prop : string) (value : dvalue) (rest : Bag) (b : t) :
  loop b ((prop, value) :: rest) =
  match case_of prop with
  | Some c => loop (assign c value b) rest
  | None => (fst (loop b rest), Warn (warning prop) :: snd (loop b rest))
  end.
Proof.
  simpl. destruct (case_of prop) as [c|]; [reflexivity|].
  now destruct (loop b rest).
Qed.

Lemma Battery_loop_fields (props : Bag) (b : t) :
  fst (loop b props) = steps step b props.
Proof.
  revert b. induction props as [|[prop value] rest IH]; intros b;
    [reflexivity|].
  rewrite Battery_loop_cons, steps_cons. unfold step at 2.
  destruct (case_of prop) as [c|]; apply IH.
Qed.

(** Nothing is emitted inside the loop. *)
Lemma Battery_loop_emitted (props : Bag) (b : t) : emitted (snd (loop b props)) = 0.
Proof.
  revert b. induction props as [|[prop value] rest IH]; intros b;
    [reflexivity|].
  rewrite Battery_loop_cons. destruct (case_of prop) as [c|]; [apply IH|].
  cbn [snd]. rewrite emitted_cons_warn. apply IH.
Qed.

Lemma Battery_loop_warnings (props : Bag) (b : t) :
  warnings (snd (loop b props)) =
  map warning (unrecognized recognized (keys props)).
Proof.
  revert b. induction props as [|[prop value] rest IH]; intros b;
    [reflexivity|].
  rewrite Battery_loop_cons. cbn [keys map fst]. rewrite unrecognized_cons.
  unfold recognized at 1.
  destruct (case_of prop) as [c|]; cbn [snd map].
  - apply IH.
  - rewrite warnings_cons_warn. f_equal. apply IH.
Qed.

Lemma Battery_loop_select (props : Bag) (b : t) :
  fst (loop b (select recognized props)) = fst (loop b props).
Proof.
  revert b. induction props as [|[prop value] rest IH]; intros b;
    [reflexivity|].
  rewrite select_cons, (Battery_loop_cons prop value rest). unfold recognized at 1.
  destruct (case_of prop) as [c|] eqn:E; cbn [fst].
  - rewrite Battery_loop_cons, E. apply IH.
  - apply IH.
Qed.

(** A notification that names no recognized property leaves the fields as
    they were. *)
Lemma Battery_loop_unrecognized (props : Bag) (b : t) :
  select recognized props = [] -> fst (loop b props) = b.
Proof.
  intros H. now rewrite <- Battery_loop_select, H.
Qed.

Lemma Battery_handler_emitted (props : Bag) (b : t) :
  emitted (snd (on_PropertiesChanged IFACE props b)) = 1.
Proof.
  unfold on_PropertiesChanged. rewrite String.eqb_refl. cbn [negb].
  pose proof (Battery_loop_emitted props b) as H.
  destruct (loop b props) as [b' log]. cbn [snd] in *.
  now rewrite emitted_app, H.
Qed.

Lemma Battery_handler_fields (props : Bag) (b : t) :
  fst (on_PropertiesChanged IFACE props b) = steps step b props.
Proof.
  unfold on_PropertiesChanged. rewrite String.eqb_refl. cbn [negb].
  rewrite <- Battery_loop_fields. now destruct (loop b props).
Qed.

Lemma Battery_handler_warnings (props : Bag) (b : t) :
  warnings (snd (on_PropertiesChanged IFACE props b)) =
  map warning (unrecognized recognized (keys props)).
Proof.
  unfold on_PropertiesChanged. rewrite String.eqb_refl. cbn [negb].
  rewrite <- (Battery_loop_warnings props b).
  destruct (loop b props) as [b' log]. cbn [snd].
  rewrite warnings_app. cbn. apply app_nil_r.
Qed.

End BatteryFacts.

(** ** The listeners on a matching interface *)

Lemma Adapter_handler_matching (changed : Bag) (a : Adapter.t) :
  Adapter.on_PropertiesChanged Adapter.IFACE changed a = Adapter.loop a changed.
Proof. unfold Adapter.on_PropertiesChanged. now rewrite String.eqb_refl. Qed.

Lemma Device_handler_matching (fromPath : dvalue -> option Adapter.t)
    (props : Bag) (d : Device.t) :
  Device.handle fromPath Device.IFACE props d = Device.run fromPath d props.
Proof. unfold Device.handle. now rewrite String.eqb_refl. Qed.

Lemma Device_listener_matching (props : Bag) (d : Device.t) :
  Device.on_PropertiesChanged Device.IFACE props d = Device.loop d props.
Proof. unfold Device.on_PropertiesChanged. now rewrite String.eqb_refl. Qed.

Lemma foreign_interface (iface own : string) :
  iface <> own -> negb (iface =? own) = true.
Proof. intros H. apply String.eqb_neq in H. now rewrite H. Qed.

(** * The claims *)

(** C2.  A notification whose interface name differs from the interface of
    the Entity (Adapter, Device, Battery) leaves every field unchanged and
    raises no "changed" event: the listener returns the entity as it was,
    with an empty log (and, for a Device, without suspending or looking
    anything up). *)
Theorem C2_foreign_notification_ignored :
  forall (iface : string) (props : Bag),
    (iface <> Adapter.IFACE ->
     forall a, Adapter.on_PropertiesChanged iface props a = (a, [])) /\
    (iface <> Device.IFACE ->
     forall d,
       Device.on_PropertiesChanged iface props d = (d, [], Device.Returned) /\
       forall fromPath,
         Device.handle fromPath iface props d = (d, [], Device.Returned)) /\
    (iface <> Battery.IFACE ->
     forall b, Battery.on_PropertiesChanged iface props b = (b, [])).
Proof.
  intros iface props. split; [|split].
  - intros H a. unfold Adapter.on_PropertiesChanged.
    now rewrite (foreign_interface _ _ H).
  - intros H d. split.
    + unfold Device.on_PropertiesChanged. now rewrite (foreign_interface _ _ H).
    + intros fromPath. unfold Device.handle.
      now rewrite (foreign_interface _ _ H).
  - intros H b. unfold Battery.on_PropertiesChanged.
    now rewrite (foreign_interface _ _ H).
Qed.

Lemma C2_witness :
  Adapter.on_PropertiesChanged "org.bluez.MediaControl1"
    [("Powered", DBool true)] hci0 = (hci0, []) /\
  (Device.on_PropertiesChanged "org.bluez.MediaControl1"
     [("Connected", DBool true)] headset = (headset, [], Device.Returned) /\
   forall fromPath,
     Device.handle fromPath "org.bluez.MediaControl1"
       [("Connected", DBool true)] headset = (headset, [], Device.Returned)) /\
  Battery.on_PropertiesChanged "org.bluez.MediaControl1"
    [("Percentage", DNum 55)] cell = (cell, []).
Proof.
  split; [|split].
  - apply (C2_foreign_notification_ignored "org.bluez.MediaControl1"
             [("Powered", DBool true)]).
    discriminate.
  - apply (C2_foreign_notification_ignored "org.bluez.MediaControl1"
             [("Connected", DBool true)]).
    discriminate.
  - apply (C2_foreign_notification_ignored "org.bluez.MediaControl1"
             [("Percentage", DNum 55)]).
    discriminate.
Defined.

(** C10.  For a Battery, a notification on the battery interface raises
    exactly one "changed" event whatever it carries; in particular when none
    of its property names is recognized, in which case no field changes and
    the event is raised all the same. *)
Theorem C10_battery_always_emits_once :
  forall (props : Bag) (b : Battery.t),
    emitted (snd (Battery.on_PropertiesChanged Battery.IFACE props b)) = 1 /\
    (select Battery.recognized props = [] ->
     fst (Battery.on_PropertiesChanged Battery.IFACE props b) = b /\
     emitted (snd (Battery.on_PropertiesChanged Battery.IFACE props b)) = 1).
Proof.
  intros props b. split; [apply Battery_handler_emitted|].
  intros H. split; [|apply Battery_handler_emitted].
  rewrite Battery_handler_fields, <- Battery_loop_fields.
  now apply Battery_loop_unrecognized.
Qed.

Lemma C10_witness :
  fst (Battery.on_PropertiesChanged Battery.IFACE
         [("Voltage", DNum 3); ("Temperature", DNum 21)] cell) = cell /\
  emitted (snd (Battery.on_PropertiesChanged Battery.IFACE
                  [("Voltage", DNum 3); ("Temperature", DNum 21)] cell)) = 1.
Proof.
  apply (C10_battery_always_emits_once
           [("Voltage", DNum 3); ("Temperature", DNum 21)] cell).
  reflexivity.
Defined.

(** C3.  Construction of an Adapter or a Device from a snapshot succeeds if
    and only if every required property of the type is present.  On success
    the path is the one given and every field holds the value the snapshot
    has for its property, an optional field being [Null] when the property is
    omitted (the adapter reference of a Device is not assigned yet: the
    snapshot's adapter path is handed to the lookup).  When a required property
    is missing, construction throws the error of reading a missing property,
    naming a required property the snapshot lacks, and returns no entity. *)
Theorem C3_construction_from_snapshot :
  forall (path : string) (bag : Bag),
    (((exists r, Adapter.fromDBusObject (path, bag) = Ok r) <->
      Forall (present bag) Adapter.required_props) /\
     (forall a tasks,
        Adapter.fromDBusObject (path, bag) = Ok (a, tasks) ->
        Adapter._path a = path /\
        forall c, Adapter.get c a = or_null (bag_get (Adapter.name_of c) bag)) /\
     (~ Forall (present bag) Adapter.required_props ->
      exists prop,
        In prop Adapter.required_props /\ bag_get prop bag = None /\
        Adapter.fromDBusObject (path, bag) = Throw (TypeError prop))) /\
    (((exists r, Device.fromDBusObject (path, bag) = Ok r) <->
      Forall (present bag) Device.required_props) /\
     (forall d tasks,
        Device.fromDBusObject (path, bag) = Ok (d, tasks) ->
        Device._path d = path /\
        (forall c, Device.get c d = or_null (bag_get (Device.name_of c) bag)) /\
        Device._adapter d = None /\
        exists v, bag_get "Adapter" bag = Some v /\ In (ResolveAdapter v) tasks) /\
     (~ Forall (present bag) Device.required_props ->
      exists prop,
        In prop Device.required_props /\ bag_get prop bag = None /\
        Device.fromDBusObject (path, bag) = Throw (TypeError prop))).
Proof.
  intros path bag. split; (split; [split|split]).
  - intros [[a tasks] E]. now apply Adapter_fromDBusObject_Ok in E.
  - apply Adapter_fromDBusObject_total.
  - intros a tasks E. apply Adapter_fromDBusObject_Ok in E. tauto.
  - apply Adapter_fromDBusObject_Throw.
  - intros [[d tasks] E]. now apply Device_fromDBusObject_Ok in E.
  - apply Device_fromDBusObject_total.
  - intros d tasks E. apply Device_fromDBusObject_Ok in E.
    destruct E as (H1 & _ & H3 & H4 & v & H5 & ->).
    repeat split; try assumption. exists v. split; [assumption|now left].
  - apply Device_fromDBusObject_Throw.
Qed.

(** The snapshot of [hci0], which has no [Modalias], constructs, with
    [modalias] null, and without [Address] it does not; the snapshot of the
    headset constructs, with [name] null, and without [Adapter] it does
    not. *)
Lemma C3_witness :
  ((exists r,
      Adapter.fromDBusObject ("/org/bluez/hci0", hci0_bag) = Ok r /\
      Adapter._modalias (fst r) = Null /\
      Adapter._address (fst r) = DStr "00:1A:7D:DA:71:13") /\
   (exists prop,
      In prop Adapter.required_props /\
      bag_get prop (tl hci0_bag) = None /\
      Adapter.fromDBusObject ("/org/bluez/hci0", tl hci0_bag) =
        Throw (TypeError prop))) /\
  ((exists r,
      Device.fromDBusObject
        ("/org/bluez/hci0/dev_AA_BB_CC_DD_EE_FF",
         device_bag "AA:BB:CC:DD:EE:FF" "Headset" "/org/bluez/hci0") = Ok r /\
      Device._name (fst r) = Null /\
      Device._alias (fst r) = DStr "Headset" /\
      Device._adapter (fst r) = None) /\
   (exists prop,
      In prop Device.required_props /\
      bag_get prop (removelast (device_bag "AA:BB:CC:DD:EE:FF" "Headset" "")) = None /\
      Device.fromDBusObject
        ("/org/bluez/hci0/dev_AA_BB_CC_DD_EE_FF",
         removelast (device_bag "AA:BB:CC:DD:EE:FF" "Headset" "")) =
        Throw (TypeError prop))).
Proof.
  split.
  - pose proof (C3_construction_from_snapshot "/org/bluez/hci0" hci0_bag)
      as [[Hiff [Hok _]] _].
    pose proof (C3_construction_from_snapshot "/org/bluez/hci0" (tl hci0_bag))
      as [[_ [_ Hthrow]] _].
    split.
    + destruct (proj2 Hiff) as [[a tasks] E].
      { repeat constructor; discriminate. }
      exists (a, tasks). split; [exact E|].
      destruct (Hok a tasks E) as [_ Hget].
      split.
      * exact (Hget Adapter.Modalias).
      * pose proof (Hget Adapter.Address) as H. simpl in H. now inversion H.
    + apply Hthrow. intros H. apply Forall_inv in H. now apply H.
  - pose proof (C3_construction_from_snapshot
                  "/org/bluez/hci0/dev_AA_BB_CC_DD_EE_FF"
                  (device_bag "AA:BB:CC:DD:EE:FF" "Headset" "/org/bluez/hci0"))
      as [_ [Hiff [Hok _]]].
    pose proof (C3_construction_from_snapshot
                  "/org/bluez/hci0/dev_AA_BB_CC_DD_EE_FF"
                  (removelast (device_bag "AA:BB:CC:DD:EE:FF" "Headset" "")))
      as [_ [_ [_ Hthrow]]].
    split.
    + destruct (proj2 Hiff) as [[d tasks] E].
      { repeat constructor; discriminate. }
      exists (d, tasks). split; [exact E|].
      destruct (Hok d tasks E) as (_ & Hget & Hnone & _).
      split; [exact (Hget Device.Name)|]. split; [|exact Hnone].
      pose proof (Hget Device.Alias) as H. simpl in H. now inversion H.
    + apply Hthrow. intros H.
      do 5 apply Forall_inv_tail in H.
      apply Forall_inv in H. now apply H.
Defined.

(** C1 (as stated, it fails).  On the adapter interface, a notification that
    carries two recognized properties, both with new values, raises two
    "changed" events, not one. *)
Lemma C1_counterexample :
  Adapter._powered
    (fst (Adapter.on_PropertiesChanged Adapter.IFACE powered_and_discovering hci0))
    <> Adapter._powered hci0 /\
  Adapter._discovering
    (fst (Adapter.on_PropertiesChanged Adapter.IFACE powered_and_discovering hci0))
    <> Adapter._discovering hci0 /\
  emitted
    (snd (Adapter.on_PropertiesChanged Adapter.IFACE powered_and_discovering hci0))
    = 2.
Proof. repeat split; vm_compute; discriminate. Qed.

(** C1 (amended).  For a notification on the Entity's own interface:
    an Adapter raises one "changed" event per recognized property the
    notification carries, and so does a Device whose adapter lookups resolve;
    hence none when no property is recognized, and exactly one only when
    exactly one is.  A Battery raises exactly one "changed" event for a
    notification that carries at least one recognized property. *)
Theorem C1_events_per_notification :
  forall (props : Bag),
    (forall a,
       emitted (snd (Adapter.on_PropertiesChanged Adapter.IFACE props a)) =
       length (select Adapter.recognized props)) /\
    (forall fromPath d,
       Device.resolves fromPath props = true ->
       emitted (snd (fst (Device.handle fromPath Device.IFACE props d))) =
       length (select Device.recognized props)) /\
    (forall b,
       select Battery.recognized props <> [] ->
       emitted (snd (Battery.on_PropertiesChanged Battery.IFACE props b)) = 1).
Proof.
  intros props. split; [|split].
  - intros a. rewrite Adapter_handler_matching. apply Adapter_loop_emitted.
  - intros fromPath d H. rewrite Device_handler_matching.
    now apply Device_run_resolves.
  - intros b _. apply Battery_handler_emitted.
Qed.

Lemma C1_witness :
  emitted (snd (fst (Device.handle only_hci0 Device.IFACE
                       [("Connected", DBool true); ("Adapter", DStr "/org/bluez/hci0");
                        ("Codec", DStr "aac")] headset))) = 2 /\
  emitted (snd (Battery.on_PropertiesChanged Battery.IFACE
                  [("Percentage", DNum 55)] cell)) = 1.
Proof.
  split.
  - apply (C1_events_per_notification
             [("Connected", DBool true); ("Adapter", DStr "/org/bluez/hci0");
              ("Codec", DStr "aac")]).
    reflexivity.
  - apply (C1_events_per_notification [("Percentage", DNum 55)]).
    discriminate.
Defined.

(** C5 (as stated, it fails).  For a Device, with a bus on which only
    [/org/bluez/hci0] resolves: a notification with an unknown name, an
    adapter path whose lookup is rejected, and a name, leaves the name
    unassigned although [Name] is recognized; and in a notification where the
    unknown name follows the rejected adapter path, the unknown name is not
    logged. *)
Lemma C5_counterexample :
  Device._name
    (fst (fst (Device.handle only_hci0 Device.IFACE
                 [("Codec", DStr "aac"); ("Adapter", DStr "/org/bluez/hci7");
                  ("Name", DStr "Speaker")] headset))) = Null /\
  snd (Device.handle only_hci0 Device.IFACE
         [("Codec", DStr "aac"); ("Adapter", DStr "/org/bluez/hci7");
          ("Name", DStr "Speaker")] headset) = Device.Rejected /\
  warnings
    (snd (fst (Device.handle only_hci0 Device.IFACE
                 [("Adapter", DStr "/org/bluez/hci7"); ("Codec", DStr "aac")]
                 headset))) = [].
Proof. repeat split. Qed.

(** C5 (amended).  On the Entity's own interface, for an Adapter and a
    Battery every property name outside the [switch] is logged, in order, with
    the text ["bluen: Adapter: Unhandled property change: "] (respectively
    ["bluen: Battery: ..."]) followed by the name, and skipped: the fields end
    as they would had the notification not carried those names, and every
    recognized property of the notification (its keys being distinct) ends in
    its field.  For a Device, unknown names change neither the fields nor how
    the listener ends; when the adapter lookups of the notification resolve,
    the listener runs to its end, every unknown name is logged with
    ["bluen: Device: Unhandled property change: "] followed by the name, and
    every recognized property ends in its field, the adapter reference being
    the Adapter looked up. *)
Theorem C5_unknown_properties_skipped :
  forall (props : Bag),
    (forall a,
       let r := Adapter.on_PropertiesChanged Adapter.IFACE props a in
       warnings (snd r) =
         map (fun prop =>
                ("bluen: Adapter: Unhandled property change: " ++ prop)%string)
           (unrecognized Adapter.recognized (keys props)) /\
       fst r =
         fst (Adapter.on_PropertiesChanged Adapter.IFACE
                (select Adapter.recognized props) a) /\
       (wf_bag props ->
        forall prop v c,
          In (prop, v) props -> Adapter.case_of prop = Some c ->
          Adapter.get c (fst r) = Val v)) /\
    (forall fromPath d,
       let r := Device.handle fromPath Device.IFACE props d in
       let r' :=
         Device.handle fromPath Device.IFACE (select Device.recognized props) d in
       fst (fst r) = fst (fst r') /\ snd r = snd r' /\
       (Device.resolves fromPath props = true ->
        snd r = Device.Returned /\
        warnings (snd (fst r)) =
          map (fun prop =>
                 ("bluen: Device: Unhandled property change: " ++ prop)%string)
            (unrecognized Device.recognized (keys props)) /\
        (wf_bag props ->
         forall prop v,
           In (prop, v) props ->
           (forall c, Device.case_of prop = Device.Field c ->
                      Device.get c (fst (fst r)) = Val v) /\
           (Device.case_of prop = Device.AdapterRef ->
            Device._adapter (fst (fst r)) = fromPath v)))) /\
    (forall b,
       let r := Battery.on_PropertiesChanged Battery.IFACE props b in
       warnings (snd r) =
         map (fun prop =>
                ("bluen: Battery: Unhandled property change: " ++ prop)%string)
           (unrecognized Battery.recognized (keys props)) /\
       fst r =
         fst (Battery.on_PropertiesChanged Battery.IFACE
                (select Battery.recognized props) b) /\
       (wf_bag props ->
        forall prop v c,
          In (prop, v) props -> Battery.case_of prop = Some c ->
          Battery.get c (fst r) = Val v)).
Proof.
  intros props. split; [|split].
  - intros a. cbv zeta. rewrite !Adapter_handler_matching.
    split; [apply Adapter_loop_warnings|].
    split; [symmetry; apply Adapter_loop_select|].
    intros Hwf prop v c Hin Hc. rewrite Adapter_loop_fields.
    apply (steps_read Adapter.step Adapter.Prop_ nullable Adapter.get
             Adapter.case_of Val) with (k := prop); try assumption.
    + intros. now apply Adapter_get_same.
    + intros. now apply Adapter_get_other with (k := k).
  - intros fromPath d. cbv zeta. rewrite !Device_handler_matching.
    destruct (Device_run_select fromPath props d) as (H1 & H2 & _).
    split; [now symmetry|]. split; [now symmetry|].
    intros Hres.
    destruct (Device_run_resolves fromPath props d Hres)
      as (Hf & Hst & _ & Hw & _).
    split; [assumption|]. split; [assumption|].
    intros Hwf prop v Hin. rewrite Hf. split.
    + intros c Hc.
      apply (steps_read (Device.step fromPath) Device.Prop_ nullable Device.get
               Device.field_of Val) with (k := prop); try assumption.
      * intros. now apply Device_get_same.
      * intros. now apply Device_get_other with (k := k).
      * unfold Device.field_of. now rewrite Hc.
    + intros Hc. apply Device_case_of_AdapterRef in Hc. subst prop.
      apply (steps_read (Device.step fromPath) unit (option Adapter.t)
               (fun _ => Device._adapter)
               (fun k => if k =? "Adapter" then Some tt else None) fromPath)
        with (k := "Adapter") (f := tt); try assumption; try reflexivity.
      * intros s k w f Hk. destruct (String.eqb_spec k "Adapter"); [|discriminate].
        subst. apply Device_adapter_same.
      * intros s k q w f Hk Hne.
        destruct (String.eqb_spec k "Adapter"); [|discriminate]. subst.
        apply Device_adapter_other. congruence.
  - intros b. cbv zeta.
    split; [apply Battery_handler_warnings|].
    split.
    + rewrite !Battery_handler_fields, <- !Battery_loop_fields.
      symmetry. apply Battery_loop_select.
    + intros Hwf prop v c Hin Hc. rewrite Battery_handler_fields.
      apply (steps_read Battery.step Battery.Prop_ nullable Battery.get
               Battery.case_of Val) with (k := prop); try assumption.
      * intros. now apply Battery_get_same.
      * intros. now apply Battery_get_other with (k := k).
Qed.

Ltac solve_wf :=
  unfold wf_bag; simpl;
  repeat (constructor; [simpl; intuition discriminate|]); constructor.

Lemma C5_witness :
  (warnings
     (snd (Adapter.on_PropertiesChanged Adapter.IFACE
             [("Roles", DArr []); ("Discovering", DBool true)] hci0))
     = ["bluen: Adapter: Unhandled property change: Roles"] /\
   Adapter.get Adapter.Discovering
     (fst (Adapter.on_PropertiesChanged Adapter.IFACE
             [("Roles", DArr []); ("Discovering", DBool true)] hci0))
     = Val (DBool true)) /\
  (warnings (snd (fst (Device.handle only_hci0 Device.IFACE mixed headset)))
     = ["bluen: Device: Unhandled property change: Codec";
        "bluen: Device: Unhandled property change: Volume"] /\
   Device.get Device.RSSI
     (fst (fst (Device.handle only_hci0 Device.IFACE mixed headset)))
     = Val (DNum (-60)) /\
   Device._adapter (fst (fst (Device.handle only_hci0 Device.IFACE mixed headset)))
     = Some hci0) /\
  (warnings
     (snd (Battery.on_PropertiesChanged Battery.IFACE
             [("Voltage", DNum 3); ("Percentage", DNum 55)] cell))
     = ["bluen: Battery: Unhandled property change: Voltage"] /\
   Battery.get Battery.Percentage
     (fst (Battery.on_PropertiesChanged Battery.IFACE
             [("Voltage", DNum 3); ("Percentage", DNum 55)] cell))
     = Val (DNum 55)).
Proof.
  split; [|split].
  - destruct (C5_unknown_properties_skipped
                [("Roles", DArr []); ("Discovering", DBool true)])
      as [HA _].
    destruct (HA hci0) as (Hw & _ & H).
    split; [exact Hw|].
    apply (H ltac:(solve_wf) "Discovering"); [simpl; tauto|reflexivity].
  - destruct (C5_unknown_properties_skipped mixed) as (_ & HD & _).
    destruct (HD only_hci0 headset) as (_ & _ & H).
    destruct (H eq_refl) as (_ & Hw & Happlied).
    split; [exact Hw|]. split.
    + apply (Happlied ltac:(solve_wf) "RSSI" (DNum (-60))); [simpl; tauto|reflexivity].
    + apply (Happlied ltac:(solve_wf) "Adapter" (DStr "/org/bluez/hci0"));
        [simpl; tauto|reflexivity].
  - destruct (C5_unknown_properties_skipped
                [("Voltage", DNum 3); ("Percentage", DNum 55)])
      as (_ & _ & HB).
    destruct (HB cell) as (Hw & _ & H).
    split; [exact Hw|].
    apply (H ltac:(solve_wf) "Percentage"); [simpl; tauto|reflexivity].
Defined.

(** C4 (as stated, it fails).  For a Device, with a bus on which only
    [/org/bluez/hci0] resolves: the first notification is abandoned at its
    rejected adapter lookup, before its name is assigned, and the second does
    not bring the name back; their union, whose adapter path is the second's,
    assigns the name. *)
Lemma C4_counterexample :
  Device._name
    (fst (fst (Device.handle only_hci0 Device.IFACE moved_back
                 (fst (fst (Device.handle only_hci0 Device.IFACE
                              moved_and_named headset))))))
    = Null /\
  Device._name
    (fst (fst (Device.handle only_hci0 Device.IFACE
                 (bag_union moved_and_named moved_back) headset)))
    = Val (DStr "Speaker").
Proof. split; reflexivity. Qed.

(** The same without any rejection: the second notification is delivered
    while the listener of the first awaits its lookup; the first one's alias
    is then written last. *)
Lemma Device_interleaved_listeners :
  exists d1 log1 rest d2 log2 d3 log3,
    Device.on_PropertiesChanged Device.IFACE moved_and_aliased headset
      = (d1, log1, Device.Awaiting (DStr "/org/bluez/hci0") rest) /\
    Device.on_PropertiesChanged Device.IFACE aliased d1
      = (d2, log2, Device.Returned) /\
    Device.resume d2 (only_hci0 (DStr "/org/bluez/hci0")) rest
      = (d3, log3, Device.Returned) /\
    Device._alias d3 = DStr "old" /\
    Device._alias
      (fst (fst (Device.handle only_hci0 Device.IFACE
                   (bag_union moved_and_aliased aliased) headset)))
      = DStr "new".
Proof. repeat eexists. Qed.

(** C4 (amended).  Let N and N' be two notifications on the Entity's own
    interface, and their union be the bag that has N's entries with N'
    written over them (a property of both has the value of N').  For an
    Adapter and for a Battery, the fields after N and then N' are the fields
    after the union alone.  For a Device the same holds when each listener has
    run to its end before the next notification is handled and the adapter
    lookups of N and of N' resolve. *)
Theorem C4_last_write_wins :
  forall (N N' : Bag),
    wf_bag N -> wf_bag N' ->
    (forall k,
       bag_get k (bag_union N N') =
       match bag_get k N' with
       | Some v => Some v
       | None => bag_get k N
       end) /\
    (forall a,
       fst (Adapter.on_PropertiesChanged Adapter.IFACE N'
              (fst (Adapter.on_PropertiesChanged Adapter.IFACE N a))) =
       fst (Adapter.on_PropertiesChanged Adapter.IFACE (bag_union N N') a)) /\
    (forall fromPath d,
       Device.resolves fromPath N = true ->
       Device.resolves fromPath N' = true ->
       fst (fst (Device.handle fromPath Device.IFACE N'
                   (fst (fst (Device.handle fromPath Device.IFACE N d))))) =
       fst (fst (Device.handle fromPath Device.IFACE (bag_union N N') d))) /\
    (forall b,
       fst (Battery.on_PropertiesChanged Battery.IFACE N'
              (fst (Battery.on_PropertiesChanged Battery.IFACE N b))) =
       fst (Battery.on_PropertiesChanged Battery.IFACE (bag_union N N') b)).
Proof.
  intros N N' HN HN'. split; [|split; [|split]].
  - intros k. now apply bag_get_union.
  - intros a. rewrite !Adapter_handler_matching, !Adapter_loop_fields.
    symmetry. apply steps_union; try assumption.
    + apply Adapter_step_overwrite.
    + apply Adapter_step_commute.
  - intros fromPath d H H'. rewrite !Device_handler_matching.
    destruct (Device_run_resolves fromPath N d H) as [-> _].
    destruct (Device_run_resolves fromPath N'
                (steps (Device.step fromPath) d N) H') as [-> _].
    destruct (Device_run_resolves fromPath (bag_union N N') d
                (Device_resolves_union fromPath N N' H H')) as [-> _].
    symmetry. apply steps_union; try assumption.
    + apply Device_step_overwrite.
    + apply Device_step_commute.
  - intros b. rewrite !Battery_handler_fields.
    symmetry. apply steps_union; try assumption.
    + apply Battery_step_overwrite.
    + apply Battery_step_commute.
Qed.

Lemma C4_witness :
  fst (Adapter.on_PropertiesChanged Adapter.IFACE
         [("Powered", DBool false); ("Alias", DStr "desk")]
         (fst (Adapter.on_PropertiesChanged Adapter.IFACE
                 powered_and_discovering hci0))) =
  fst (Adapter.on_PropertiesChanged Adapter.IFACE
         (bag_union powered_and_discovering
            [("Powered", DBool false); ("Alias", DStr "desk")]) hci0) /\
  fst (fst (Device.handle only_hci0 Device.IFACE aliased
              (fst (fst (Device.handle only_hci0 Device.IFACE
                           moved_and_aliased headset))))) =
  fst (fst (Device.handle only_hci0 Device.IFACE
              (bag_union moved_and_aliased aliased) headset)).
Proof.
  split.
  - apply (C4_last_write_wins powered_and_discovering
             [("Powered", DBool false); ("Alias", DStr "desk")]
             ltac:(solve_wf) ltac:(solve_wf)).
  - apply (C4_last_write_wins moved_and_aliased aliased
             ltac:(solve_wf) ltac:(solve_wf));
      reflexivity.
Defined.

(** ** The listener of a Device and its adapter reference *)

Lemma Device_assign_adapter (c : Device.Prop_) (v : dvalue) (d : Device.t) :
  Device._adapter (Device.assign c v d) = Device._adapter d.
Proof. destruct c; reflexivity. Qed.

Lemma Device_loop_cons (prop : string) (value : dvalue) (rest : Bag) (d : Device.t) :
  Device.loop d ((prop, value) :: rest) =
  match Device.case_of prop with
  | Device.Field c =>
      let r := Device.loop (Device.assign c value d) rest in
      (fst (fst r), Emit "change" :: snd (fst r), snd r)
  | Device.AdapterRef => (d, [FromPath value], Device.Awaiting value rest)
  | Device.Default =>
      let r := Device.loop d rest in
      (fst (fst r), Warn (Device.warning prop) :: snd (fst r), snd r)
  end.
Proof.
  simpl. destruct (Device.case_of prop) as [c| |]; try reflexivity.
  - now destruct (Device.loop (Device.assign c value d) rest) as [[d' log] st].
  - now destruct (Device.loop d rest) as [[d' log] st].
Qed.

(** The synchronous part of the listener never assigns the adapter
    reference. *)
Lemma Device_loop_adapter (props : Bag) (d : Device.t) :
  Device._adapter (fst (fst (Device.loop d props))) = Device._adapter d.
Proof.
  revert d. induction props as [|[prop value] rest IH]; intros d;
    [reflexivity|].
  rewrite Device_loop_cons. destruct (Device.case_of prop) as [c| |];
    cbn [fst snd].
  - rewrite IH. apply Device_assign_adapter.
  - reflexivity.
  - apply IH.
Qed.

(** A listener that got through [pre] suspends at the adapter path that
    follows. *)
Lemma Device_loop_await (pre rest : Bag) (v : dvalue) (d : Device.t) :
  snd (Device.loop d pre) = Device.Returned ->
  Device.loop d (pre ++ ("Adapter", v) :: rest) =
  (fst (fst (Device.loop d pre)),
   snd (fst (Device.loop d pre)) ++ [FromPath v],
   Device.Awaiting v rest).
Proof.
  revert d. induction pre as [|[prop value] pre IH]; intros d.
  - intros _. reflexivity.
  - rewrite <- app_comm_cons, !Device_loop_cons.
    destruct (Device.case_of prop) as [c| |]; cbn [fst snd].
    + intros H. now rewrite (IH _ H).
    + discriminate.
    + intros H. now rewrite (IH _ H).
Qed.

(** C6.  A Device is constructed with its adapter reference unassigned, the
    lookup of the snapshot's adapter path being left to the event loop; the
    reference is assigned when that lookup resolves.  The synchronous part of
    the listener never assigns it: on its own interface, a listener that
    reaches an adapter path calls the lookup for that path and suspends, and
    the reference is the Adapter found once the listener is resumed. *)
Theorem C6_adapter_resolved_asynchronously :
  (forall path bag d tasks,
     Device.fromDBusObject (path, bag) = Ok (d, tasks) ->
     Device._adapter d = None /\
     exists v, bag_get "Adapter" bag = Some v /\ In (ResolveAdapter v) tasks) /\
  (forall d adapter,
     Device._adapter (Device.resolved (Some adapter) d) = Some adapter) /\
  (forall iface props d,
     Device._adapter (fst (fst (Device.on_PropertiesChanged iface props d))) =
     Device._adapter d) /\
  (forall pre v rest d,
     snd (Device.loop d pre) = Device.Returned ->
     Device.on_PropertiesChanged Device.IFACE (pre ++ ("Adapter", v) :: rest) d =
     (fst (fst (Device.loop d pre)),
      snd (fst (Device.loop d pre)) ++ [FromPath v],
      Device.Awaiting v rest)) /\
  (forall d adapter rest,
     Device._adapter (fst (fst (Device.resume d (Some adapter) rest))) =
     Some adapter).
Proof.
  repeat apply conj.
  - intros path bag d tasks E. apply Device_fromDBusObject_Ok in E.
    destruct E as (_ & _ & _ & H & v & Hv & ->).
    split; [assumption|]. exists v. split; [assumption|now left].
  - reflexivity.
  - intros iface props d. unfold Device.on_PropertiesChanged.
    destruct (negb (iface =? Device.IFACE)); [reflexivity|].
    apply Device_loop_adapter.
  - intros pre v rest d H. rewrite Device_listener_matching.
    now apply Device_loop_await.
  - intros d adapter rest. unfold Device.resume.
    pose proof (Device_loop_adapter rest
                  (Device.with_adapter (Some adapter) d)) as H.
    now destruct (Device.loop (Device.with_adapter (Some adapter) d) rest)
      as [[d' log] st].
Qed.

Lemma C6_witness :
  (exists d tasks,
     Device.fromDBusObject
       ("/org/bluez/hci0/dev_AA_BB_CC_DD_EE_FF",
        device_bag "AA:BB:CC:DD:EE:FF" "Headset" "/org/bluez/hci0") = Ok (d, tasks) /\
     Device._adapter d = None /\
     In (ResolveAdapter (DStr "/org/bluez/hci0")) tasks) /\
  Device.on_PropertiesChanged Device.IFACE
    ([("Connected", DBool true)] ++
     ("Adapter", DStr "/org/bluez/hci1") :: [("Alias", DStr "x")]) headset =
  (fst (fst (Device.loop headset [("Connected", DBool true)])),
   snd (fst (Device.loop headset [("Connected", DBool true)])) ++
     [FromPath (DStr "/org/bluez/hci1")],
   Device.Awaiting (DStr "/org/bluez/hci1") [("Alias", DStr "x")]).
Proof.
  destruct C6_adapter_resolved_asynchronously as (Hctor & _ & _ & Hawait & _).
  split.
  - destruct (Device.fromDBusObject
                ("/org/bluez/hci0/dev_AA_BB_CC_DD_EE_FF",
                 device_bag "AA:BB:CC:DD:EE:FF" "Headset" "/org/bluez/hci0"))
      as [[d tasks]|e] eqn:E; [|discriminate E].
    exists d, tasks. split; [reflexivity|].
    destruct (Hctor _ _ _ _ E) as [Hnone (v & Hv & Hin)].
    split; [exact Hnone|].
    vm_compute in Hv. inversion Hv; subst. exact Hin.
  - apply Hawait. reflexivity.
Defined.

(** ** Enumerating the devices of an adapter *)

Lemma map_result_Ok {A B C : Type} (f : A -> result B) (g : B -> C) (h : A -> C)
    (l : list A) (ys : list B) :
  (forall x y, In x l -> f x = Ok y -> g y = h x) ->
  map_result f l = Ok ys -> map g ys = map h l.
Proof.
  revert ys. induction l as [|x rest IH]; simpl; intros ys Hf E.
  - inversion E. reflexivity.
  - destruct (f x) as [y|e] eqn:Ex; simpl in E; [|discriminate].
    destruct (map_result f rest) as [ys'|e] eqn:Er; simpl in E; [|discriminate].
    inversion E; subst. simpl. f_equal.
    + apply Hf with (x := x); [now left|assumption].
    + apply IH; [|reflexivity]. intros x' y' Hin. apply Hf. now right.
Qed.

(** The devices returned are, in order, the managed objects whose path has
    the adapter's path as a string prefix and that expose the device
    interface. *)
Lemma Device_allOfAdapter_paths (adapter : Adapter.t)
    (objects : Device.ManagedObjects) (ds : list (Device.t * list Task)) :
  Device.allOfAdapter adapter (Ok objects) = Ok ds ->
  map (fun r => Device._path (fst r)) ds =
  map fst
    (filter (fun o => includes (keys (snd o)) Device.IFACE)
       (filter (fun o => String.prefix (Adapter._path adapter) (fst o)) objects)).
Proof.
  unfold Device.allOfAdapter. simpl. intros E.
  apply (map_result_Ok _ (fun r => Device._path (fst r)) fst) in E.
  - now rewrite map_map in E.
  - intros [p [bag|]] [d tasks] _ Ex; simpl in *; [|discriminate].
    now apply Device_fromDBusObject_Ok in Ex.
Qed.

(** The devices of [hci0] on the sample bus: the headset only. *)
Lemma Device_allOfAdapter_hci0 :
  exists ds,
    Device.allOfAdapter hci0 (Ok managed) = Ok ds /\
    map (fun r => Device._path (fst r)) ds =
      ["/org/bluez/hci0/dev_AA_BB_CC_DD_EE_FF"].
Proof. eexists. split; reflexivity. Qed.

(** C7.  On the sample bus, the devices of the adapter at [/org/bluez/hci1]
    include the mouse at [/org/bluez/hci10/dev_77_88_99_AA_BB_CC], which is
    under the adapter at [/org/bluez/hci10] and says so in its snapshot:
    [startsWith] compares characters, not path components. *)
Theorem C7_allOfAdapter_prefix_of_other_adapter :
  exists ds,
    Device.allOfAdapter hci1 (Ok managed) = Ok ds /\
    map (fun r => Device._path (fst r)) ds =
      ["/org/bluez/hci1/dev_11_22_33_44_55_66";
       "/org/bluez/hci10/dev_77_88_99_AA_BB_CC"] /\
    map (fun r => snd r) ds =
      [[ResolveAdapter (DStr "/org/bluez/hci1");
        ListenForChanges "/org/bluez/hci1/dev_11_22_33_44_55_66" Device.IFACE];
       [ResolveAdapter (DStr "/org/bluez/hci10");
        ListenForChanges "/org/bluez/hci10/dev_77_88_99_AA_BB_CC" Device.IFACE]].
Proof. eexists. repeat split; reflexivity. Qed.

(** C8.  Every setter of a mutable property of an Adapter ([alias],
    [powered], [discoverable], [pairable], [pairableTimeout],
    [discoverableTimeout]) and of a Device ([trusted], [blocked], [alias])
    assigns the field before it returns, so the accessor gives the new value
    at once; it leaves one remote property-set call, with the property name
    and the type tag of the field, to the event loop and returns no error; and
    the field keeps the new value whether that call succeeds or fails. *)
Theorem C8_setters_are_optimistic :
  forall (a : Adapter.t) (d : Device.t),
    (forall v, optimistic (Adapter.set_alias v a) Adapter._alias Adapter.settled
                 (DStr v)
                 (PropertySet (Adapter._path a) "org.bluez.Adapter1" "Alias" "s"
                    (DStr v))) /\
    (forall v, optimistic (Adapter.set_powered v a) Adapter._powered Adapter.settled
                 (DBool v)
                 (PropertySet (Adapter._path a) "org.bluez.Adapter1" "Powered" "b"
                    (DBool v))) /\
    (forall v, optimistic (Adapter.set_discoverable v a) Adapter._discoverable
                 Adapter.settled (DBool v)
                 (PropertySet (Adapter._path a) "org.bluez.Adapter1" "Discoverable"
                    "b" (DBool v))) /\
    (forall v, optimistic (Adapter.set_pairable v a) Adapter._pairable
                 Adapter.settled (DBool v)
                 (PropertySet (Adapter._path a) "org.bluez.Adapter1" "Pairable" "b"
                    (DBool v))) /\
    (forall v, optimistic (Adapter.set_pairableTimeout v a)
                 Adapter._pairableTimeout Adapter.settled (DNum v)
                 (PropertySet (Adapter._path a) "org.bluez.Adapter1"
                    "PairableTimeout" "u" (DNum v))) /\
    (forall v, optimistic (Adapter.set_discoverableTimeout v a)
                 Adapter._discoverableTimeout Adapter.settled (DNum v)
                 (PropertySet (Adapter._path a) "org.bluez.Adapter1"
                    "DiscoverableTimeout" "u" (DNum v))) /\
    (forall v, optimistic (Device.set_trusted v d) Device._trusted Device.settled
                 (DBool v)
                 (PropertySet (Device._path d) "org.bluez.Device1" "Trusted" "b"
                    (DBool v))) /\
    (forall v, optimistic (Device.set_blocked v d) Device._blocked Device.settled
                 (DBool v)
                 (PropertySet (Device._path d) "org.bluez.Device1" "Blocked" "b"
                    (DBool v))) /\
    (forall v, optimistic (Device.set_alias v d) Device._alias Device.settled
                 (DStr v)
                 (PropertySet (Device._path d) "org.bluez.Device1" "Alias" "s"
                    (DStr v))).
Proof.
  intros a d. repeat apply conj; intros v; repeat split.
Qed.

(** C9.  [Battery.ofDevice] returns a Battery only if the managed objects
    have an entry for the device's path that exposes the battery interface;
    when the entry for the device's path does not expose it, the call fails
    with the error that says the device does not support the battery
    interface, whatever the property reads would return. *)
Theorem C9_battery_requires_interface :
  forall (device : Device.t) (objects : Device.ManagedObjects)
         (Get : string -> string -> result dvalue),
    (forall r,
       Battery.ofDevice device (Ok objects) Get = Ok r ->
       exists object,
         index objects (Device._path device) = Some object /\
         includes (keys object) Battery.IFACE = true) /\
    (forall object,
       index objects (Device._path device) = Some object ->
       includes (keys object) Battery.IFACE = false ->
       Battery.ofDevice device (Ok objects) Get = Throw Battery.unsupported).
Proof.
  intros device objects Get. unfold Battery.ofDevice. simpl. split.
  - intros r. destruct (index objects (Device._path device)) as [object|];
      [|discriminate].
    destruct (includes (keys object) Battery.IFACE) eqn:E; [|discriminate].
    intros _. now exists object.
  - intros object -> ->. reflexivity.
Qed.

(** On the sample bus the headset has a battery, read as 80 percent; the
    keyboard has none. *)
Lemma C9_witness :
  (exists object,
     index managed (Device._path headset) = Some object /\
     includes (keys object) Battery.IFACE = true) /\
  Battery.ofDevice keyboard (Ok managed) battery_get = Throw Battery.unsupported.
Proof.
  split.
  - destruct (C9_battery_requires_interface headset managed battery_get) as [H _].
    destruct (Battery.ofDevice headset (Ok managed) battery_get) as [r|e] eqn:E;
      [|discriminate E].
    exact (H r eq_refl).
  - destruct (C9_battery_requires_interface keyboard managed battery_get) as [_ H].
    apply (H [("org.bluez.Device1",
               device_bag "11:22:33:44:55:66" "Keyboard" "/org/bluez/hci1")]);
      reflexivity.
Defined.

(** * Further properties of the code *)

(** ** Shared lemmas *)

Lemma bag_get_Some_In (prop : string) (v : dvalue) (bag : Bag) :
  bag_get prop bag = Some v -> In (prop, v) bag.
Proof.
  induction bag as [|[k w] rest IH]; simpl; [discriminate|].
  destruct (String.eqb_spec k prop) as [->|Hne].
  - intros E. inversion E. now left.
  - intros E. right. now apply IH.
Qed.

Lemma index_includes {A : Type} (o : list (string * A)) (k : string) :
  includes (keys o) k = true <-> index o k <> None.
Proof.
  induction o as [|[k' v] rest IH]; simpl.
  - unfold includes. simpl. split; [discriminate|]. intros H. now elim H.
  - unfold includes in *. simpl. rewrite (String.eqb_sym k k').
    destruct (String.eqb_spec k' k) as [->|Hne]; simpl.
    + split; [discriminate|reflexivity].
    + apply IH.
Qed.

(** Filtering on an interface and then reading its bag is [exposing]. *)
Lemma exposing_filter (iface : string) (objects : Device.ManagedObjects) :
  map (fun o => (fst o, index (snd o) iface))
    (filter (fun o => includes (keys (snd o)) iface) objects) =
  map (fun e => (fst e, Some (snd e))) (exposing iface objects).
Proof.
  unfold exposing.
  induction objects as [|[p ifaces] rest IH]; [reflexivity|].
  cbn [filter flat_map fst snd].
  destruct (index ifaces iface) as [bag|] eqn:Ei.
  - assert (H : includes (keys ifaces) iface = true).
    { apply index_includes. congruence. }
    rewrite H. cbn [map app fst snd]. now rewrite Ei, IH.
  - assert (H : includes (keys ifaces) iface = false).
    { destruct (includes (keys ifaces) iface) eqn:E; [|reflexivity].
      apply index_includes in E. now elim E. }
    rewrite H. apply IH.
Qed.

(** [objs.map(f)] succeeds exactly when [f] succeeds on every element, and
    otherwise throws what [f] throws on the first element it fails on. *)
Lemma map_result_all_Ok {A B : Type} (f : A -> result B) (l : list A) :
  Forall (fun x => exists y, f x = Ok y) l ->
  exists ys, map_result f l = Ok ys /\ length ys = length l.
Proof.
  induction 1 as [|x rest [y Hy] _ [ys [IH Hlen]]]; simpl.
  - now exists [].
  - rewrite Hy, IH. simpl. exists (y :: ys). split; [reflexivity|].
    simpl. now rewrite Hlen.
Qed.

Lemma map_result_Throw {A B : Type} (f : A -> result B) (l : list A) (e : Error) :
  map_result f l = Throw e -> exists x, In x l /\ f x = Throw e.
Proof.
  induction l as [|x rest IH]; simpl; [discriminate|].
  destruct (f x) as [y|e'] eqn:Ex; simpl.
  - destruct (map_result f rest) as [ys|e''] eqn:Er; simpl; [discriminate|].
    intros E. inversion E; subst.
    destruct (IH eq_refl) as [x' [Hin Hx']]. exists x'. split; [now right|assumption].
  - intros E. inversion E; subst. exists x. split; [now left|assumption].
Qed.

Lemma map_result_Ok_Forall {A B : Type} (f : A -> result B) (l : list A)
    (ys : list B) :
  map_result f l = Ok ys -> Forall2 (fun x y => f x = Ok y) l ys.
Proof.
  revert ys. induction l as [|x rest IH]; simpl; intros ys E.
  - inversion E. constructor.
  - destruct (f x) as [y|e] eqn:Ex; simpl in E; [|discriminate].
    destruct (map_result f rest) as [ys'|e] eqn:Er; simpl in E; [|discriminate].
    inversion E; subst. constructor; [assumption|now apply IH].
Qed.

(** ** Enumeration: [Bluez.getAdapters] and [Device.allOfAdapter] *)

Lemma map_result_exposing {B : Type} (F : string * Bag -> result B) (err : Error)
    (iface : string) (objects : Device.ManagedObjects) :
  map_result
    (fun o =>
       match snd o with
       | Some bag => F (fst o, bag)
       | None => Throw err
       end)
    (map (fun o => (fst o, index (snd o) iface))
       (filter (fun o => includes (keys (snd o)) iface) objects)) =
  map_result F (exposing iface objects).
Proof.
  rewrite exposing_filter.
  induction (exposing iface objects) as [|[p bag] rest IH]; simpl; [reflexivity|].
  now rewrite IH.
Qed.

Lemma getAdapters_exposing (objects : Device.ManagedObjects) :
  Bluez.getAdapters (Ok objects) =
  map_result Adapter.fromDBusObject (exposing Adapter.IFACE objects).
Proof. unfold Bluez.getAdapters. simpl. apply map_result_exposing. Qed.

Lemma allOfAdapter_exposing (adapter : Adapter.t) (objects : Device.ManagedObjects) :
  Device.allOfAdapter adapter (Ok objects) =
  map_result Device.fromDBusObject (exposing Device.IFACE (under adapter objects)).
Proof. unfold Device.allOfAdapter, under. simpl. apply map_result_exposing. Qed.

(** A snapshot has every property of [required]. *)
Lemma complete_dec (bag : Bag) (required : list string) :
  Forall (present bag) required \/ ~ Forall (present bag) required.
Proof.
  induction required as [|p rest [IH|IH]].
  - left. constructor.
  - destruct (bag_get p bag) as [v|] eqn:E.
    + left. constructor; [unfold present; congruence|assumption].
    + right. intros H. apply Forall_inv in H. now apply H.
  - right. intros H. apply Forall_inv_tail in H. now apply IH.
Qed.

(** X1.  [Bluez.getAdapters] returns, in the order of the reply, one Adapter
    for each managed object that exposes the adapter interface: its path is
    the object's path, its fields are read from the bag of that interface
    alone, and it has subscribed to its own path. *)
Theorem Bluez_getAdapters_one_per_adapter_object :
  forall (objects : Device.ManagedObjects) (adapters : list (Adapter.t * list Task)),
    Bluez.getAdapters (Ok objects) = Ok adapters ->
    Forall2
      (fun entry r =>
         Adapter._path (fst r) = fst entry /\
         (forall c,
            Adapter.get c (fst r) =
            or_null (bag_get (Adapter.name_of c) (snd entry))) /\
         snd r = [ListenForChanges (fst entry) Adapter.IFACE])
      (exposing Adapter.IFACE objects) adapters.
Proof.
  intros objects adapters E. rewrite getAdapters_exposing in E.
  apply map_result_Ok_Forall in E.
  induction E as [|[p bag] [a tasks] entries rs H _ IH]; constructor;
    [|assumption].
  pose proof (Adapter_fromDBusObject_Ok p bag a tasks H) as (H1 & _ & H3).
  simpl. repeat split; try assumption.
  unfold Adapter.fromDBusObject in H. simpl in H.
  repeat match type of H with
    | bind ?r _ = _ => destruct r; simpl in H; [|discriminate H]
    end.
  now inversion H.
Qed.

Lemma X1_witness :
  exists adapters,
    Bluez.getAdapters (Ok managed) = Ok adapters /\
    Forall2
      (fun entry r =>
         Adapter._path (fst r) = fst entry /\
         snd r = [ListenForChanges (fst entry) Adapter.IFACE])
      (exposing Adapter.IFACE managed) adapters.
Proof.
  destruct (Bluez.getAdapters (Ok managed)) as [adapters|e] eqn:E;
    [|discriminate E].
  exists adapters. split; [reflexivity|].
  pose proof (Bluez_getAdapters_one_per_adapter_object managed adapters E) as H.
  apply Forall2_impl with (2 := H). tauto.
Defined.

(** X2.  [Bluez.getAdapters] is all or nothing.  A failed query is passed on
    as it is.  Otherwise the call succeeds exactly when every object that
    exposes the adapter interface has all the required properties, and then
    returns as many Adapters as there are such objects; if it fails, it is
    with the error of reading a required property that one of these objects
    lacks, and no Adapter is returned for the others. *)
Theorem Bluez_getAdapters_all_or_nothing :
  forall (objects : Device.ManagedObjects),
    (forall e, Bluez.getAdapters (Throw e) = Throw e) /\
    ((exists adapters,
        Bluez.getAdapters (Ok objects) = Ok adapters /\
        length adapters = length (exposing Adapter.IFACE objects)) <->
     Forall (fun entry => Forall (present (snd entry)) Adapter.required_props)
       (exposing Adapter.IFACE objects)) /\
    (forall e,
       Bluez.getAdapters (Ok objects) = Throw e ->
       exists entry prop,
         In entry (exposing Adapter.IFACE objects) /\
         In prop Adapter.required_props /\
         bag_get prop (snd entry) = None /\
         e = TypeError prop).
Proof.
  intros objects. split; [reflexivity|]. rewrite getAdapters_exposing. split.
  - split.
    + intros (adapters & E & _). apply map_result_Ok_Forall in E.
      induction E as [|[p bag] [a tasks] entries rs H _ IH]; constructor;
        [|assumption].
      now apply Adapter_fromDBusObject_Ok in H.
    + intros H. apply map_result_all_Ok.
      apply Forall_impl with (2 := H). intros [p bag] Hc.
      now apply Adapter_fromDBusObject_total.
  - intros e E. apply map_result_Throw in E. destruct E as ([p bag] & Hin & E).
    destruct (complete_dec bag Adapter.required_props) as [Hc|Hc].
    + destruct (Adapter_fromDBusObject_total p bag Hc) as [r Hr]. congruence.
    + destruct (Adapter_fromDBusObject_Throw p bag Hc) as (prop & H1 & H2 & H3).
      exists (p, bag), prop. repeat split; try assumption. congruence.
Qed.

Lemma X2_witness :
  (exists adapters,
     Bluez.getAdapters (Ok managed) = Ok adapters /\
     length adapters = length (exposing Adapter.IFACE managed)) /\
  (exists entry prop,
     In entry (exposing Adapter.IFACE
                 (("/org/bluez/hci2", [("org.bluez.Adapter1", tl hci0_bag)])
                  :: managed)) /\
     In prop Adapter.required_props /\
     bag_get prop (snd entry) = None /\
     TypeError "Address" = TypeError prop).
Proof.
  split.
  - apply (Bluez_getAdapters_all_or_nothing managed).
    vm_compute. repeat constructor; discriminate.
  - apply (Bluez_getAdapters_all_or_nothing
             (("/org/bluez/hci2", [("org.bluez.Adapter1", tl hci0_bag)])
              :: managed)).
    reflexivity.
Defined.

(** X3.  [Device.allOfAdapter] returns, in the order of the reply, one
    Device for each managed object whose path has the adapter's path as a
    prefix and that exposes the device interface.  Each has the object's
    path and the fields of the device interface's bag; none has its adapter
    reference assigned, whatever Adapter was passed in: each is left with a
    lookup of the adapter path of its own snapshot. *)
Theorem Device_allOfAdapter_one_per_device_object :
  forall (adapter : Adapter.t) (objects : Device.ManagedObjects)
         (devices : list (Device.t * list Task)),
    Device.allOfAdapter adapter (Ok objects) = Ok devices ->
    Forall2
      (fun entry r =>
         String.prefix (Adapter._path adapter) (fst entry) = true /\
         Device._path (fst r) = fst entry /\
         (forall c,
            Device.get c (fst r) =
            or_null (bag_get (Device.name_of c) (snd entry))) /\
         Device._adapter (fst r) = None /\
         exists v,
           bag_get "Adapter" (snd entry) = Some v /\
           snd r = [ResolveAdapter v; ListenForChanges (fst entry) Device.IFACE])
      (exposing Device.IFACE (under adapter objects)) devices.
Proof.
  intros adapter objects devices E. rewrite allOfAdapter_exposing in E.
  apply map_result_Ok_Forall in E.
  assert (Hpre : Forall (fun entry =>
                           String.prefix (Adapter._path adapter) (fst entry) = true)
                   (exposing Device.IFACE (under adapter objects))).
  { apply Forall_forall. intros [p bag] Hin. unfold exposing in Hin.
    apply in_flat_map in Hin. destruct Hin as ([p' ifaces] & Hin & Hbag).
    simpl in Hbag. destruct (index ifaces Device.IFACE); [|contradiction].
    destruct Hbag as [Hbag|[]]. inversion Hbag; subst.
    unfold under in Hin. apply filter_In in Hin. apply Hin. }
  induction E as [|[p bag] [d tasks] entries rs H _ IH]; constructor.
  - apply Forall_inv in Hpre.
    pose proof (Device_fromDBusObject_Ok p bag d tasks H)
      as (H1 & _ & H3 & H4 & v & H5 & H6).
    simpl. repeat split; try assumption. exists v. now split.
  - apply IH. now apply Forall_inv_tail in Hpre.
Qed.

Lemma X3_witness :
  exists devices,
    Device.allOfAdapter hci0 (Ok managed) = Ok devices /\
    Forall2
      (fun entry r =>
         Device._path (fst r) = fst entry /\ Device._adapter (fst r) = None)
      (exposing Device.IFACE (under hci0 managed)) devices.
Proof.
  destruct (Device.allOfAdapter hci0 (Ok managed)) as [devices|e] eqn:E;
    [|discriminate E].
  exists devices. split; [reflexivity|].
  pose proof (Device_allOfAdapter_one_per_device_object hci0 managed devices E)
    as H.
  apply Forall2_impl with (2 := H). tauto.
Defined.

(** X4.  [Device.allOfAdapter] is all or nothing.  A failed query is passed
    on as it is.  Otherwise the call succeeds exactly when every object under
    the adapter's path that exposes the device interface has all the required
    properties; one such object lacking one makes the whole call fail, with
    the error of reading that property. *)
Theorem Device_allOfAdapter_all_or_nothing :
  forall (adapter : Adapter.t) (objects : Device.ManagedObjects),
    (forall e, Device.allOfAdapter adapter (Throw e) = Throw e) /\
    ((exists devices,
        Device.allOfAdapter adapter (Ok objects) = Ok devices /\
        length devices = length (exposing Device.IFACE (under adapter objects))) <->
     Forall (fun entry => Forall (present (snd entry)) Device.required_props)
       (exposing Device.IFACE (under adapter objects))) /\
    (forall e,
       Device.allOfAdapter adapter (Ok objects) = Throw e ->
       exists entry prop,
         In entry (exposing Device.IFACE (under adapter objects)) /\
         In prop Device.required_props /\
         bag_get prop (snd entry) = None /\
         e = TypeError prop).
Proof.
  intros adapter objects. split; [reflexivity|].
  rewrite allOfAdapter_exposing. split.
  - split.
    + intros (devices & E & _). apply map_result_Ok_Forall in E.
      induction E as [|[p bag] [d tasks] entries rs H _ IH]; constructor;
        [|assumption].
      now apply Device_fromDBusObject_Ok in H.
    + intros H. apply map_result_all_Ok.
      apply Forall_impl with (2 := H). intros [p bag] Hc.
      now apply Device_fromDBusObject_total.
  - intros e E. apply map_result_Throw in E. destruct E as ([p bag] & Hin & E).
    destruct (complete_dec bag Device.required_props) as [Hc|Hc].
    + destruct (Device_fromDBusObject_total p bag Hc) as [r Hr]. congruence.
    + destruct (Device_fromDBusObject_Throw p bag Hc) as (prop & H1 & H2 & H3).
      exists (p, bag), prop. repeat split; try assumption. congruence.
Qed.

Lemma X4_witness :
  (exists devices,
     Device.allOfAdapter hci1 (Ok managed) = Ok devices /\
     length devices = length (exposing Device.IFACE (under hci1 managed))) /\
  (exists entry prop,
     In entry (exposing Device.IFACE
                 (under hci0
                    (("/org/bluez/hci0/dev_00_00_00_00_00_01",
                      [("org.bluez.Device1", [("Alias", DStr "x")])])
                     :: managed))) /\
     In prop Device.required_props /\
     bag_get prop (snd entry) = None /\
     TypeError "Paired" = TypeError prop).
Proof.
  split.
  - apply (Device_allOfAdapter_all_or_nothing hci1 managed).
    vm_compute. repeat constructor; discriminate.
  - apply (Device_allOfAdapter_all_or_nothing hci0
             (("/org/bluez/hci0/dev_00_00_00_00_00_01",
               [("org.bluez.Device1", [("Alias", DStr "x")])])
              :: managed)).
    reflexivity.
Defined.

(** ** Notifications, field by field *)

Section Folds.

Context {St : Type}.
Variable step : St -> string -> dvalue -> St.

Lemma steps_kept {X : Type} (proj : St -> X) :
  (forall s k v, proj (step s k v) = proj s) ->
  forall b s, proj (steps step s b) = proj s.
Proof.
  intros Hstep. induction b as [|[k v] rest IH]; intros s; [reflexivity|].
  rewrite steps_cons, IH. apply Hstep.
Qed.

Hypothesis step_overwrite :
  forall s k v w, step (step s k v) k w = step s k w.
Hypothesis step_commute :
  forall s k q v w, k <> q -> step (step s k v) q w = step (step s q w) k v.

Lemma steps_permutation (b b' : Bag) :
  Permutation b b' -> wf_bag b -> forall s, steps step s b = steps step s b'.
Proof.
  unfold wf_bag. induction 1 as [|[k v] l l' Hp IH|[k v] [q w] l|l l' l'' H1 IH1 H2 IH2];
    intros Hwf s.
  - reflexivity.
  - rewrite !steps_cons. apply IH. now inversion Hwf.
  - rewrite !steps_cons. f_equal. apply step_commute.
    simpl in Hwf. inversion Hwf as [|? ? Hq _]; subst.
    intros ->. apply Hq. now left.
  - rewrite IH1 by assumption. apply IH2.
    apply Permutation_NoDup with (l := keys l); [|assumption].
    now apply Permutation_map.
Qed.

Lemma steps_twice (b : Bag) :
  wf_bag b -> forall s, steps step (steps step s b) b = steps step s b.
Proof.
  unfold wf_bag. induction b as [|[k v] rest IH]; intros Hwf s; [reflexivity|].
  simpl in Hwf. inversion Hwf as [|? ? Hk Hrest]; subst.
  rewrite !steps_cons.
  rewrite (steps_absent step step_commute k v rest Hk s).
  rewrite step_overwrite.
  rewrite <- (steps_absent step step_commute k v rest Hk s).
  now apply IH.
Qed.

Variables Field R : Type.
Variable read : Field -> St -> R.
Variable field_of : string -> option Field.
Variable written : dvalue -> R.

Hypothesis read_same :
  forall s k v f, field_of k = Some f -> read f (step s k v) = written v.
Hypothesis read_other :
  forall s k q v f, field_of k = Some f -> k <> q ->
    read f (step s q v) = read f s.

Lemma steps_updated (k : string) (f : Field) (b : Bag) :
  wf_bag b -> field_of k = Some f ->
  forall s,
    read f (steps step s b) =
    match bag_get k b with
    | Some v => written v
    | None => read f s
    end.
Proof.
  intros Hwf Hf s. destruct (bag_get k b) as [v|] eqn:E.
  - apply bag_get_Some_In in E.
    now apply (steps_read step Field R read field_of written read_same read_other
                 k v f b).
  - apply bag_get_None in E.
    now apply (steps_read_absent step Field R read field_of read_other k f b).
Qed.

End Folds.

Lemma Adapter_ext (a b : Adapter.t) :
  Adapter._path a = Adapter._path b ->
  (forall c, Adapter.get c a = Adapter.get c b) ->
  a = b.
Proof.
  intros Hp H. destruct a, b. simpl in Hp. subst.
  pose proof (H Adapter.Address) as H1. pose proof (H Adapter.Name) as H2.
  pose proof (H Adapter.Alias) as H3. pose proof (H Adapter.Class) as H4.
  pose proof (H Adapter.Powered) as H5. pose proof (H Adapter.Discoverable) as H6.
  pose proof (H Adapter.Pairable) as H7.
  pose proof (H Adapter.PairableTimeout) as H8.
  pose proof (H Adapter.DiscoverableTimeout) as H9.
  pose proof (H Adapter.Discovering) as H10. pose proof (H Adapter.UUIDs) as H11.
  pose proof (H Adapter.Modalias) as H12.
  simpl in *.
  repeat match goal with
    | E : Val _ = Val _ |- _ => injection E as E
    end.
  subst. reflexivity.
Qed.

Lemma Device_ext (a b : Device.t) :
  Device._path a = Device._path b ->
  Device._adapter a = Device._adapter b ->
  (forall c, Device.get c a = Device.get c b) ->
  a = b.
Proof.
  intros Hp Ha H. destruct a, b. simpl in Hp, Ha. subst.
  pose proof (H Device.Name) as H1. pose proof (H Device.Icon) as H2.
  pose proof (H Device.Class) as H3. pose proof (H Device.Appearance) as H4.
  pose proof (H Device.UUIDs) as H5. pose proof (H Device.Paired) as H6.
  pose proof (H Device.Connected) as H7. pose proof (H Device.Trusted) as H8.
  pose proof (H Device.Blocked) as H9. pose proof (H Device.Alias) as H10.
  pose proof (H Device.LegacyPairing) as H11. pose proof (H Device.Modalias) as H12.
  pose proof (H Device.RSSI) as H13. pose proof (H Device.TxPower) as H14.
  pose proof (H Device.ManufacturerData) as H15.
  pose proof (H Device.ServiceData) as H16.
  pose proof (H Device.GattServices) as H17.
  simpl in *.
  repeat match goal with
    | E : Val _ = Val _ |- _ => injection E as E
    end.
  subst. reflexivity.
Qed.

Lemma Battery_ext (a b : Battery.t) :
  Battery._path a = Battery._path b ->
  (forall c, Battery.get c a = Battery.get c b) ->
  a = b.
Proof.
  intros Hp H. destruct a, b. simpl in Hp. subst.
  pose proof (H Battery.Percentage) as H1. pose proof (H Battery.Source) as H2.
  simpl in *.
  repeat match goal with
    | E : Val _ = Val _ |- _ => injection E as E
    end.
  subst. reflexivity.
Qed.

Lemma Adapter_step_path (a : Adapter.t) (k : string) (v : dvalue) :
  Adapter._path (Adapter.step a k v) = Adapter._path a.
Proof.
  unfold Adapter.step. destruct (Adapter.case_of k) as [c|]; [|reflexivity].
  destruct c; reflexivity.
Qed.

Lemma Device_step_path (fromPath : dvalue -> option Adapter.t)
    (d : Device.t) (k : string) (v : dvalue) :
  Device._path (Device.step fromPath d k v) = Device._path d.
Proof.
  unfold Device.step. destruct (Device.case_of k) as [c| |]; try reflexivity.
  destruct c; reflexivity.
Qed.

Lemma Battery_step_path (b : Battery.t) (k : string) (v : dvalue) :
  Battery._path (Battery.step b k v) = Battery._path b.
Proof.
  unfold Battery.step. destruct (Battery.case_of k) as [c|]; [|reflexivity].
  destruct c; reflexivity.
Qed.

Lemma Adapter_handler_fields (N : Bag) (a : Adapter.t) :
  fst (Adapter.on_PropertiesChanged Adapter.IFACE N a) = steps Adapter.step a N.
Proof. rewrite Adapter_handler_matching. apply Adapter_loop_fields. Qed.

Lemma Adapter_handler_emitted (N : Bag) (a : Adapter.t) :
  emitted (snd (Adapter.on_PropertiesChanged Adapter.IFACE N a)) =
  length (select Adapter.recognized N).
Proof. rewrite Adapter_handler_matching. apply Adapter_loop_emitted. Qed.

Lemma Device_handler_fields (fromPath : dvalue -> option Adapter.t)
    (N : Bag) (d : Device.t) :
  Device.resolves fromPath N = true ->
  fst (fst (Device.handle fromPath Device.IFACE N d)) =
  steps (Device.step fromPath) d N.
Proof.
  intros H. rewrite Device_handler_matching. now apply Device_run_resolves.
Qed.

Lemma Adapter_updated (N : Bag) (a : Adapter.t) (c : Adapter.Prop_) :
  wf_bag N ->
  Adapter.get c (steps Adapter.step a N) =
  updated N (Adapter.name_of c) (Adapter.get c a).
Proof.
  intros Hwf. unfold updated.
  apply (steps_updated Adapter.step Adapter.Prop_ nullable Adapter.get
           Adapter.case_of Val); try assumption.
  - intros. now apply Adapter_get_same.
  - intros. now apply Adapter_get_other with (k := k).
  - apply Adapter_case_of_name_of.
Qed.

Lemma Battery_updated (N : Bag) (b : Battery.t) (c : Battery.Prop_) :
  wf_bag N ->
  Battery.get c (steps Battery.step b N) =
  updated N (Battery.name_of c) (Battery.get c b).
Proof.
  intros Hwf. unfold updated.
  apply (steps_updated Battery.step Battery.Prop_ nullable Battery.get
           Battery.case_of Val); try assumption.
  - intros. now apply Battery_get_same.
  - intros. now apply Battery_get_other with (k := k).
  - now destruct c.
Qed.

Lemma Device_updated (fromPath : dvalue -> option Adapter.t)
    (N : Bag) (d : Device.t) (c : Device.Prop_) :
  wf_bag N ->
  Device.get c (steps (Device.step fromPath) d N) =
  updated N (Device.name_of c) (Device.get c d).
Proof.
  intros Hwf. unfold updated.
  apply (steps_updated (Device.step fromPath) Device.Prop_ nullable Device.get
           Device.field_of Val); try assumption.
  - intros. now apply Device_get_same.
  - intros. now apply Device_get_other with (k := k).
  - unfold Device.field_of. now rewrite Device_case_of_name_of.
Qed.

Lemma Device_adapter_updated (fromPath : dvalue -> option Adapter.t)
    (N : Bag) (d : Device.t) :
  wf_bag N ->
  Device._adapter (steps (Device.step fromPath) d N) =
  match bag_get "Adapter" N with
  | Some v => fromPath v
  | None => Device._adapter d
  end.
Proof.
  intros Hwf.
  apply (steps_updated (Device.step fromPath) unit (option Adapter.t)
           (fun _ => Device._adapter)
           (fun k => if k =? "Adapter" then Some tt else None) fromPath)
    with (f := tt); try assumption; try reflexivity.
  - intros s k w f Hk. destruct (String.eqb_spec k "Adapter"); [|discriminate].
    subst. apply Device_adapter_same.
  - intros s k q w f Hk Hne.
    destruct (String.eqb_spec k "Adapter"); [|discriminate]. subst.
    apply Device_adapter_other. congruence.
Qed.

Lemma select_permutation (keep : string -> bool) (b b' : Bag) :
  Permutation b b' -> length (select keep b) = length (select keep b').
Proof.
  induction 1 as [|[k v] l l' _ IH|[k v] [q w] l|l l' l'' _ IH1 _ IH2];
    simpl; try reflexivity.
  - destruct (keep k); simpl; now rewrite IH.
  - destruct (keep k), (keep q); reflexivity.
  - now rewrite IH1.
Qed.

Lemma resolves_permutation (fromPath : dvalue -> option Adapter.t) (b b' : Bag) :
  Permutation b b' ->
  Device.resolves fromPath b = true -> Device.resolves fromPath b' = true.
Proof.
  intros Hp. rewrite !Device_resolves_In. intros H v Hin. apply H.
  apply Permutation_in with (l := b'); [now apply Permutation_sym|assumption].
Qed.

(** X6.  The order of the entries of a notification does not matter: two
    notifications with the same entries, the keys being distinct, leave the
    same fields and raise the same number of "changed" events, for an Adapter,
    a Battery, and a Device whose adapter lookups resolve. *)
Theorem notification_order_irrelevant :
  forall (N N' : Bag),
    Permutation N N' -> wf_bag N ->
    (forall a,
       fst (Adapter.on_PropertiesChanged Adapter.IFACE N a) =
       fst (Adapter.on_PropertiesChanged Adapter.IFACE N' a) /\
       emitted (snd (Adapter.on_PropertiesChanged Adapter.IFACE N a)) =
       emitted (snd (Adapter.on_PropertiesChanged Adapter.IFACE N' a))) /\
    (forall fromPath d,
       Device.resolves fromPath N = true ->
       fst (fst (Device.handle fromPath Device.IFACE N d)) =
       fst (fst (Device.handle fromPath Device.IFACE N' d)) /\
       emitted (snd (fst (Device.handle fromPath Device.IFACE N d))) =
       emitted (snd (fst (Device.handle fromPath Device.IFACE N' d)))) /\
    (forall b,
       fst (Battery.on_PropertiesChanged Battery.IFACE N b) =
       fst (Battery.on_PropertiesChanged Battery.IFACE N' b) /\
       emitted (snd (Battery.on_PropertiesChanged Battery.IFACE N b)) =
       emitted (snd (Battery.on_PropertiesChanged Battery.IFACE N' b))).
Proof.
  intros N N' Hp Hwf. split; [|split].
  - intros a. rewrite !Adapter_handler_fields, !Adapter_handler_emitted. split.
    + apply steps_permutation; try assumption. apply Adapter_step_commute.
    + now apply select_permutation.
  - intros fromPath d H.
    pose proof (resolves_permutation fromPath N N' Hp H) as H'.
    rewrite !Device_handler_fields by assumption.
    rewrite !Device_handler_matching. split.
    + apply steps_permutation; try assumption. apply Device_step_commute.
    + destruct (Device_run_resolves fromPath N d H) as (_ & _ & -> & _).
      destruct (Device_run_resolves fromPath N' d H') as (_ & _ & -> & _).
      now apply select_permutation.
  - intros b. rewrite !Battery_handler_fields, !Battery_handler_emitted. split.
    + apply steps_permutation; try assumption. apply Battery_step_commute.
    + reflexivity.
Qed.

Lemma X6_witness :
  fst (Adapter.on_PropertiesChanged Adapter.IFACE powered_and_discovering hci0) =
  fst (Adapter.on_PropertiesChanged Adapter.IFACE (rev powered_and_discovering) hci0)
  /\
  fst (fst (Device.handle only_hci0 Device.IFACE moved_and_aliased headset)) =
  fst (fst (Device.handle only_hci0 Device.IFACE (rev moved_and_aliased) headset)).
Proof.
  split.
  - destruct (notification_order_irrelevant powered_and_discovering
                (rev powered_and_discovering) (Permutation_rev _) ltac:(solve_wf))
      as (H & _ & _).
    exact (proj1 (H hci0)).
  - destruct (notification_order_irrelevant moved_and_aliased
                (rev moved_and_aliased) (Permutation_rev _) ltac:(solve_wf))
      as (_ & H & _).
    exact (proj1 (H only_hci0 headset eq_refl)).
Defined.

(** ** Invariants of the listeners *)

Lemma Device_assign_path (c : Device.Prop_) (v : dvalue) (d : Device.t) :
  Device._path (Device.assign c v d) = Device._path d.
Proof. destruct c; reflexivity. Qed.

(** What every assignment of the listener keeps, a run of the listener
    keeps, however it ends. *)
Lemma Device_run_stable (fromPath : dvalue -> option Adapter.t)
    (Q : Device.t -> Prop) :
  (forall d c v, Q d -> Q (Device.assign c v d)) ->
  (forall d a, Q d -> Q (Device.with_adapter (Some a) d)) ->
  forall props d, Q d -> Q (fst (fst (Device.run fromPath d props))).
Proof.
  intros Hassign Hadapter.
  induction props as [|[prop value] rest IH]; intros d Hd; [assumption|].
  rewrite Device_run_cons. destruct (Device.case_of prop) as [c| |].
  - cbn [fst]. apply IH. now apply Hassign.
  - destruct (fromPath value) as [a|]; cbn [fst]; [|assumption].
    apply IH. now apply Hadapter.
  - cbn [fst]. now apply IH.
Qed.

Lemma Device_loop_stable (Q : Device.t -> Prop) :
  (forall d c v, Q d -> Q (Device.assign c v d)) ->
  forall props d, Q d -> Q (fst (fst (Device.loop d props))).
Proof.
  intros Hassign.
  induction props as [|[prop value] rest IH]; intros d Hd; [assumption|].
  rewrite Device_loop_cons. destruct (Device.case_of prop) as [c| |]; cbn [fst].
  - apply IH. now apply Hassign.
  - assumption.
  - now apply IH.
Qed.

(** X8.  The path of an entity never changes: not by a notification,
    whatever its interface name and content and however the listener ends,
    not by a setter, and not when a lookup of the adapter settles. *)
Theorem path_never_changes :
  (forall iface N a,
     Adapter._path (fst (Adapter.on_PropertiesChanged iface N a)) =
     Adapter._path a) /\
  (forall a,
     (forall v, Adapter._path (fst (Adapter.set_alias v a)) = Adapter._path a) /\
     (forall v, Adapter._path (fst (Adapter.set_powered v a)) = Adapter._path a) /\
     (forall v, Adapter._path (fst (Adapter.set_discoverable v a)) =
                Adapter._path a) /\
     (forall v, Adapter._path (fst (Adapter.set_pairable v a)) = Adapter._path a) /\
     (forall v, Adapter._path (fst (Adapter.set_pairableTimeout v a)) =
                Adapter._path a) /\
     (forall v, Adapter._path (fst (Adapter.set_discoverableTimeout v a)) =
                Adapter._path a)) /\
  (forall iface N d,
     Device._path (fst (fst (Device.on_PropertiesChanged iface N d))) =
     Device._path d) /\
  (forall d outcome rest,
     Device._path (fst (fst (Device.resume d outcome rest))) = Device._path d) /\
  (forall fromPath iface N d,
     Device._path (fst (fst (Device.handle fromPath iface N d))) =
     Device._path d) /\
  (forall d outcome, Device._path (Device.resolved outcome d) = Device._path d) /\
  (forall d,
     (forall v, Device._path (fst (Device.set_trusted v d)) = Device._path d) /\
     (forall v, Device._path (fst (Device.set_blocked v d)) = Device._path d) /\
     (forall v, Device._path (fst (Device.set_alias v d)) = Device._path d)) /\
  (forall iface N b,
     Battery._path (fst (Battery.on_PropertiesChanged iface N b)) =
     Battery._path b).
Proof.
  assert (Hloop : forall N d,
            Device._path (fst (fst (Device.loop d N))) = Device._path d).
  { intros N d.
    apply (Device_loop_stable (fun x => Device._path x = Device._path d));
      [|reflexivity].
    intros x c v Hx. now rewrite Device_assign_path. }
  repeat match goal with |- _ /\ _ => split end.
  - intros iface N a. unfold Adapter.on_PropertiesChanged.
    destruct (negb (iface =? Adapter.IFACE)); [reflexivity|].
    rewrite Adapter_loop_fields. apply steps_kept. apply Adapter_step_path.
  - intros a. repeat split.
  - intros iface N d. unfold Device.on_PropertiesChanged.
    destruct (negb (iface =? Device.IFACE)); [reflexivity|]. apply Hloop.
  - intros d [a|] rest; [|reflexivity]. unfold Device.resume.
    pose proof (Hloop rest (Device.with_adapter (Some a) d)) as H.
    now destruct (Device.loop (Device.with_adapter (Some a) d) rest)
      as [[d' log] st].
  - intros fromPath iface N d. unfold Device.handle.
    destruct (negb (iface =? Device.IFACE)); [reflexivity|].
    apply (Device_run_stable fromPath (fun x => Device._path x = Device._path d));
      [| |reflexivity].
    + intros x c v Hx. now rewrite Device_assign_path.
    + intros x a Hx. exact Hx.
  - intros d [a|]; reflexivity.
  - intros d. repeat split.
  - intros iface N b. unfold Battery.on_PropertiesChanged.
    destruct (negb (iface =? Battery.IFACE)); [reflexivity|].
    pose proof (Battery_loop_fields N b) as H.
    destruct (Battery.loop b N) as [b' log]. cbn [fst] in *. rewrite H.
    apply steps_kept. apply Battery_step_path.
Qed.

(** ** Snapshots and notifications *)

Lemma steps_app {St : Type} (step : St -> string -> dvalue -> St)
    (s : St) (b c : Bag) :
  steps step s (b ++ c) = steps step (steps step s b) c.
Proof. unfold steps. apply fold_left_app. Qed.

Lemma plain_cons (k : string) (v : dvalue) (rest : Bag) :
  plain ((k, v) :: rest) <-> k <> "Adapter" /\ plain rest.
Proof.
  unfold plain. simpl. destruct (String.eqb_spec k "Adapter") as [->|Hne].
  - split; [discriminate|]. intros [H _]. now elim H.
  - tauto.
Qed.

Lemma plain_app (b c : Bag) : plain (b ++ c) <-> plain b /\ plain c.
Proof.
  induction b as [|[k v] rest IH]; simpl.
  - unfold plain at 2. simpl. tauto.
  - rewrite !plain_cons, IH. tauto.
Qed.

(** On a notification without adapter path the listener does not suspend,
    and no lookup is involved. *)
Lemma Device_loop_plain (fromPath : dvalue -> option Adapter.t)
    (N : Bag) (d : Device.t) :
  plain N ->
  Device.loop d N = Device.run fromPath d N /\
  Device.resolves fromPath N = true.
Proof.
  revert d. induction N as [|[k v] rest IH]; intros d Hp; [now split|].
  apply plain_cons in Hp. destruct Hp as [Hk Hp].
  rewrite Device_loop_cons, Device_run_cons, Device_resolves_cons.
  destruct (Device.case_of k) as [c| |] eqn:E.
  - destruct (IH (Device.assign c v d) Hp) as [-> ->].
    now destruct (fromPath v).
  - apply Device_case_of_AdapterRef in E. contradiction.
  - destruct (IH d Hp) as [-> ->]. now destruct (fromPath v).
Qed.

Lemma Device_loop_plain_fields (fromPath : dvalue -> option Adapter.t)
    (N : Bag) (d : Device.t) :
  plain N ->
  fst (fst (Device.loop d N)) = steps (Device.step fromPath) d N /\
  snd (Device.loop d N) = Device.Returned.
Proof.
  intros Hp. destruct (Device_loop_plain fromPath N d Hp) as [-> Hres].
  destruct (Device_run_resolves fromPath N d Hres) as (H1 & H2 & _).
  now split.
Qed.

Lemma Adapter_fromDBusObject_tasks (path : string) (bag : Bag) (a : Adapter.t)
    (tasks : list Task) :
  Adapter.fromDBusObject (path, bag) = Ok (a, tasks) ->
  tasks = [ListenForChanges path Adapter.IFACE].
Proof.
  unfold Adapter.fromDBusObject. simpl. intros H.
  repeat match type of H with
    | bind ?r _ = _ => destruct r; simpl in H; [|discriminate H]
    end.
  now inversion H.
Qed.

Lemma present_union (bag N : Bag) (prop : string) :
  wf_bag N -> present bag prop -> present (bag_union bag N) prop.
Proof.
  unfold present. intros Hwf H. rewrite bag_get_union by assumption.
  now destruct (bag_get prop N).
Qed.

Lemma updated_or_null (bag N : Bag) (prop : string) :
  wf_bag N ->
  or_null (bag_get prop (bag_union bag N)) =
  updated N prop (or_null (bag_get prop bag)).
Proof.
  intros Hwf. unfold updated. rewrite bag_get_union by assumption.
  now destruct (bag_get prop N).
Qed.

(** X10.  Local state follows the remote snapshot.  If an Adapter was
    constructed from a snapshot and then received a notification (with
    distinct keys), it is the Adapter that would be constructed from the
    snapshot with the notification written over it.  The same holds for a
    Device and a notification without adapter path, the lookup left by the
    construction included. *)
Theorem notification_agrees_with_construction :
  forall (path : string) (bag N : Bag),
    wf_bag N ->
    (forall a tasks,
       Adapter.fromDBusObject (path, bag) = Ok (a, tasks) ->
       Adapter.fromDBusObject (path, bag_union bag N) =
       Ok (fst (Adapter.on_PropertiesChanged Adapter.IFACE N a), tasks)) /\
    (forall d tasks,
       plain N ->
       Device.fromDBusObject (path, bag) = Ok (d, tasks) ->
       Device.fromDBusObject (path, bag_union bag N) =
       Ok (fst (fst (Device.on_PropertiesChanged Device.IFACE N d)), tasks)).
Proof.
  intros path bag N Hwf. split.
  - intros a tasks E.
    pose proof (Adapter_fromDBusObject_tasks _ _ _ _ E) as Ht.
    destruct (Adapter_fromDBusObject_Ok _ _ _ _ E) as (Hp & Hreq & Hget).
    destruct (Adapter_fromDBusObject_total path (bag_union bag N))
      as [[a' tasks'] E'].
    { apply Forall_impl with (2 := Hreq). intros p. now apply present_union. }
    rewrite E'.
    pose proof (Adapter_fromDBusObject_tasks _ _ _ _ E') as Ht'.
    destruct (Adapter_fromDBusObject_Ok _ _ _ _ E') as (Hp' & _ & Hget').
    f_equal. f_equal; [|congruence].
    apply Adapter_ext.
    + rewrite Adapter_handler_fields, (steps_kept Adapter.step Adapter._path)
        by apply Adapter_step_path.
      congruence.
    + intros c. rewrite Adapter_handler_fields, Adapter_updated by assumption.
      rewrite Hget', Hget. now apply updated_or_null.
  - intros d tasks Hplain E.
    destruct (Device_fromDBusObject_Ok _ _ _ _ E)
      as (Hp & Hreq & Hget & Hnone & v & Hv & Ht).
    destruct (Device_fromDBusObject_total path (bag_union bag N))
      as [[d' tasks'] E'].
    { apply Forall_impl with (2 := Hreq). intros p. now apply present_union. }
    rewrite E'.
    destruct (Device_fromDBusObject_Ok _ _ _ _ E')
      as (Hp' & _ & Hget' & Hnone' & v' & Hv' & Ht').
    rewrite Device_listener_matching.
    destruct (Device_loop_plain_fields (fun _ => None) N d Hplain) as [Hf _].
    f_equal. f_equal.
    + apply Device_ext.
      * rewrite Hf, (steps_kept (Device.step (fun _ => None)) Device._path)
          by apply Device_step_path.
        congruence.
      * rewrite Device_loop_adapter. congruence.
      * intros c. rewrite Hf, Device_updated by assumption.
        rewrite Hget', Hget. now apply updated_or_null.
    + rewrite bag_get_union in Hv' by assumption.
      unfold plain in Hplain. rewrite Hplain in Hv'. congruence.
Qed.

Lemma X10_witness :
  Adapter.fromDBusObject
    ("/org/bluez/hci0", bag_union hci0_bag powered_and_discovering) =
  Ok (fst (Adapter.on_PropertiesChanged Adapter.IFACE powered_and_discovering hci0),
      [ListenForChanges "/org/bluez/hci0" Adapter.IFACE]) /\
  Device.fromDBusObject
    ("/org/bluez/hci0/dev_AA_BB_CC_DD_EE_FF",
     bag_union (device_bag "AA:BB:CC:DD:EE:FF" "Headset" "/org/bluez/hci0") aliased) =
  Ok (fst (fst (Device.on_PropertiesChanged Device.IFACE aliased headset)),
      [ResolveAdapter (DStr "/org/bluez/hci0");
       ListenForChanges "/org/bluez/hci0/dev_AA_BB_CC_DD_EE_FF" Device.IFACE]).
Proof.
  split.
  - apply (notification_agrees_with_construction "/org/bluez/hci0" hci0_bag
             powered_and_discovering ltac:(solve_wf)).
    reflexivity.
  - apply (notification_agrees_with_construction
             "/org/bluez/hci0/dev_AA_BB_CC_DD_EE_FF"
             (device_bag "AA:BB:CC:DD:EE:FF" "Headset" "/org/bluez/hci0")
             aliased ltac:(solve_wf)); reflexivity.
Defined.

Lemma updated_self (bag : Bag) (prop : string) :
  updated bag prop (or_null (bag_get prop bag)) = or_null (bag_get prop bag).
Proof. unfold updated. now destruct (bag_get prop bag). Qed.

(** X11.  Replaying the construction snapshot as a notification changes no
    field of an Adapter; for a Device whose adapter path resolves it changes
    nothing but the adapter reference, which becomes the Adapter looked up.
    Every recognized property of the snapshot raises its "changed" event
    nonetheless. *)
Theorem replayed_snapshot_changes_nothing :
  forall (path : string) (bag : Bag),
    wf_bag bag ->
    (forall a tasks,
       Adapter.fromDBusObject (path, bag) = Ok (a, tasks) ->
       fst (Adapter.on_PropertiesChanged Adapter.IFACE bag a) = a /\
       emitted (snd (Adapter.on_PropertiesChanged Adapter.IFACE bag a)) =
       length (select Adapter.recognized bag)) /\
    (forall fromPath d tasks,
       Device.resolves fromPath bag = true ->
       Device.fromDBusObject (path, bag) = Ok (d, tasks) ->
       exists v,
         bag_get "Adapter" bag = Some v /\
         fst (fst (Device.handle fromPath Device.IFACE bag d)) =
         Device.with_adapter (fromPath v) d).
Proof.
  intros path bag Hwf. split.
  - intros a tasks E. split; [|apply Adapter_handler_emitted].
    destruct (Adapter_fromDBusObject_Ok _ _ _ _ E) as (_ & _ & Hget).
    rewrite Adapter_handler_fields. apply Adapter_ext.
    + apply steps_kept. apply Adapter_step_path.
    + intros c. rewrite Adapter_updated, Hget by assumption. apply updated_self.
  - intros fromPath d tasks Hres E.
    destruct (Device_fromDBusObject_Ok _ _ _ _ E) as (_ & _ & Hget & _ & v & Hv & _).
    exists v. split; [assumption|].
    rewrite Device_handler_fields by assumption. apply Device_ext.
    + rewrite (steps_kept (Device.step fromPath) Device._path)
        by apply Device_step_path.
      reflexivity.
    + rewrite Device_adapter_updated, Hv by assumption. reflexivity.
    + intros c. rewrite Device_updated, Hget by assumption.
      rewrite updated_self, <- Hget. now destruct c.
Qed.

Lemma X11_witness :
  (exists a,
     fst (Adapter.on_PropertiesChanged Adapter.IFACE hci0_bag a) = a /\
     emitted (snd (Adapter.on_PropertiesChanged Adapter.IFACE hci0_bag a)) = 11) /\
  (exists d v,
     bag_get "Adapter" (device_bag "AA:BB:CC:DD:EE:FF" "Headset" "/org/bluez/hci0")
       = Some v /\
     fst (fst (Device.handle only_hci0 Device.IFACE
                 (device_bag "AA:BB:CC:DD:EE:FF" "Headset" "/org/bluez/hci0") d)) =
     Device.with_adapter (only_hci0 v) d).
Proof.
  split.
  - destruct (Adapter.fromDBusObject ("/org/bluez/hci0", hci0_bag))
      as [[a tasks]|e] eqn:E; [|discriminate E].
    exists a.
    destruct (replayed_snapshot_changes_nothing "/org/bluez/hci0" hci0_bag
                ltac:(solve_wf)) as [H _].
    exact (H a tasks E).
  - destruct (Device.fromDBusObject
                ("/org/bluez/hci0/dev_AA_BB_CC_DD_EE_FF",
                 device_bag "AA:BB:CC:DD:EE:FF" "Headset" "/org/bluez/hci0"))
      as [[d tasks]|e] eqn:E; [|discriminate E].
    exists d.
    destruct (replayed_snapshot_changes_nothing
                "/org/bluez/hci0/dev_AA_BB_CC_DD_EE_FF"
                (device_bag "AA:BB:CC:DD:EE:FF" "Headset" "/org/bluez/hci0")
                ltac:(solve_wf)) as [_ H].
    exact (H only_hci0 d tasks eq_refl E).
Defined.

(** ** The Device listener and its lookups *)

Lemma Device_resolves_app (fromPath : dvalue -> option Adapter.t) (b c : Bag) :
  Device.resolves fromPath (b ++ c) =
  Device.resolves fromPath b && Device.resolves fromPath c.
Proof. unfold Device.resolves. apply forallb_app. Qed.

Lemma accepted_resolves (fromPath : dvalue -> option Adapter.t) (N : Bag) :
  Device.resolves fromPath N = true -> accepted fromPath N = N.
Proof.
  induction N as [|[k v] rest IH]; [reflexivity|].
  rewrite Device_resolves_cons. simpl.
  destruct (Device.case_of k), (fromPath v); try discriminate;
    intros H; now rewrite IH.
Qed.

Lemma accepted_rejected (fromPath : dvalue -> option Adapter.t)
    (pre rest : Bag) (v : dvalue) :
  Device.resolves fromPath pre = true -> fromPath v = None ->
  accepted fromPath (pre ++ ("Adapter", v) :: rest) = pre.
Proof.
  intros Hres Hv. induction pre as [|[k w] pre IH]; simpl.
  - now rewrite Hv.
  - rewrite Device_resolves_cons in Hres.
    destruct (Device.case_of k), (fromPath w); try discriminate;
      now rewrite IH.
Qed.

Lemma resolves_accepted (fromPath : dvalue -> option Adapter.t) (N : Bag) :
  Device.resolves fromPath (accepted fromPath N) = true.
Proof.
  induction N as [|[k v] rest IH]; [reflexivity|]. simpl.
  destruct (Device.case_of k) eqn:E, (fromPath v) eqn:Ev; try reflexivity;
    rewrite Device_resolves_cons, E, ?Ev; assumption.
Qed.

Lemma accepted_cons (fromPath : dvalue -> option Adapter.t)
    (k : string) (v : dvalue) (rest : Bag) :
  accepted fromPath ((k, v) :: rest) =
  match Device.case_of k, fromPath v with
  | Device.AdapterRef, None => []
  | _, _ => (k, v) :: accepted fromPath rest
  end.
Proof. reflexivity. Qed.

Lemma Device_run_accepted (fromPath : dvalue -> option Adapter.t)
    (N : Bag) (d : Device.t) :
  fst (fst (Device.run fromPath d N)) =
    fst (fst (Device.run fromPath d (accepted fromPath N))) /\
  emitted (snd (fst (Device.run fromPath d N))) =
    emitted (snd (fst (Device.run fromPath d (accepted fromPath N)))) /\
  snd (Device.run fromPath d N) =
    if Device.resolves fromPath N then Device.Returned else Device.Rejected.
Proof.
  revert d. induction N as [|[k v] rest IH]; intros d; [now repeat split|].
  rewrite Device_run_cons, Device_resolves_cons, accepted_cons.
  destruct (Device.case_of k) as [c| |] eqn:E.
  - destruct (IH (Device.assign c v d)) as (H1 & H2 & H3).
    rewrite Device_run_cons, E. cbn [fst snd].
    rewrite !emitted_cons_emit. repeat split; congruence.
  - destruct (fromPath v) as [a|] eqn:Ev.
    + destruct (IH (Device.with_adapter (Some a) d)) as (H1 & H2 & H3).
      rewrite Device_run_cons, E, Ev. cbn [fst snd].
      rewrite !emitted_cons_lookup, !emitted_cons_emit.
      repeat split; congruence.
    + now repeat split.
  - destruct (IH d) as (H1 & H2 & H3).
    rewrite Device_run_cons, E. cbn [fst snd].
    rewrite !emitted_cons_warn. repeat split; congruence.
Qed.

(** X12.  A rejected adapter lookup cuts a Device notification short.  The
    listener ends normally exactly when every adapter lookup of the
    notification resolves.  Otherwise it is left at the first adapter path
    whose lookup is rejected: the entries before it are applied and have
    raised their events, as if the notification had ended there, and the
    entries after it are never looked at, so the fields are left half
    updated. *)
Theorem Device_rejected_lookup_cuts_notification :
  forall (fromPath : dvalue -> option Adapter.t) (N : Bag) (d : Device.t),
    (fst (fst (Device.handle fromPath Device.IFACE N d)) =
       fst (fst (Device.handle fromPath Device.IFACE (accepted fromPath N) d)) /\
     emitted (snd (fst (Device.handle fromPath Device.IFACE N d))) =
       length (select Device.recognized (accepted fromPath N)) /\
     snd (Device.handle fromPath Device.IFACE N d) =
       (if Device.resolves fromPath N then Device.Returned else Device.Rejected)) /\
    (Device.resolves fromPath N = true -> accepted fromPath N = N) /\
    (forall pre v rest,
       N = pre ++ ("Adapter", v) :: rest ->
       Device.resolves fromPath pre = true -> fromPath v = None ->
       accepted fromPath N = pre /\
       snd (Device.handle fromPath Device.IFACE N d) = Device.Rejected).
Proof.
  intros fromPath N d. rewrite !Device_handler_matching.
  destruct (Device_run_accepted fromPath N d) as (H1 & H2 & H3).
  split; [|split].
  - split; [assumption|]. split; [|assumption].
    rewrite H2.
    now apply (Device_run_resolves fromPath (accepted fromPath N) d
                 (resolves_accepted fromPath N)).
  - apply accepted_resolves.
  - intros pre v rest -> Hres Hv. split; [now apply accepted_rejected|].
    rewrite H3, Device_resolves_app, Hres, Device_resolves_cons. simpl.
    now rewrite Hv.
Qed.

Lemma X12_witness :
  accepted only_hci0 moved_and_named = [] /\
  snd (Device.handle only_hci0 Device.IFACE moved_and_named headset) =
    Device.Rejected.
Proof.
  destruct (Device_rejected_lookup_cuts_notification only_hci0 moved_and_named
              headset) as (_ & _ & H).
  apply (H [] (DStr "/org/bluez/hci7") [("Name", DStr "Speaker")]);
    reflexivity.
Defined.

(** X13.  What a notification does while a listener is suspended.  Let a
    Device listener suspend at the adapter path of a notification, a second
    notification without adapter path be handled meanwhile, and the first
    listener be resumed with the Adapter found; no other adapter path is
    involved.  Then the fields are those of one notification in which the
    entries of the second notification come before the adapter path of the
    first: the entries of the first notification that follow its adapter path
    are written last, over those of the later notification. *)
Theorem Device_suspended_listener_writes_last :
  forall (pre rest later : Bag) (v : dvalue) (found : Adapter.t) (d : Device.t),
    plain pre -> plain rest -> plain later ->
    let first :=
      Device.on_PropertiesChanged Device.IFACE (pre ++ ("Adapter", v) :: rest) d in
    let second :=
      Device.on_PropertiesChanged Device.IFACE later (fst (fst first)) in
    let resumed := Device.resume (fst (fst second)) (Some found) rest in
    snd first = Device.Awaiting v rest /\
    snd second = Device.Returned /\
    snd resumed = Device.Returned /\
    fst (fst resumed) =
    fst (fst (Device.handle (fun _ => Some found) Device.IFACE
                (pre ++ later ++ ("Adapter", v) :: rest) d)).
Proof.
  intros pre rest later v found d Hpre Hrest Hlater. cbv zeta.
  set (look := fun _ : dvalue => Some found).
  destruct (Device_loop_plain_fields look pre d Hpre) as [Hf1 Hs1].
  rewrite !Device_listener_matching.
  rewrite (Device_loop_await pre rest v d Hs1). cbn [fst snd].
  destruct (Device_loop_plain_fields look later (fst (fst (Device.loop d pre)))
              Hlater) as [Hf2 Hs2].
  split; [reflexivity|]. split; [assumption|].
  unfold Device.resume.
  destruct (Device_loop_plain_fields look rest
              (Device.with_adapter (Some found)
                 (fst (fst (Device.loop (fst (fst (Device.loop d pre))) later))))
              Hrest) as [Hf3 Hs3].
  destruct (Device.loop
              (Device.with_adapter (Some found)
                 (fst (fst (Device.loop (fst (fst (Device.loop d pre))) later))))
              rest) as [[d3 log3] st3].
  cbn [fst snd] in *. split; [assumption|].
  rewrite Device_handler_fields.
  - rewrite !steps_app, steps_cons. rewrite Hf3, Hf2, Hf1. reflexivity.
  - apply Device_resolves_In. intros w _. discriminate.
Qed.

Lemma X13_witness :
  fst (fst (Device.resume
              (fst (fst (Device.on_PropertiesChanged Device.IFACE aliased
                           (fst (fst (Device.on_PropertiesChanged Device.IFACE
                                        ([("Connected", DBool true)] ++
                                         ("Adapter", DStr "/org/bluez/hci0")
                                         :: [("Alias", DStr "old")])
                                        headset))))))
              (Some hci0) [("Alias", DStr "old")])) =
  fst (fst (Device.handle (fun _ => Some hci0) Device.IFACE
              ([("Connected", DBool true)] ++ aliased ++
               ("Adapter", DStr "/org/bluez/hci0") :: [("Alias", DStr "old")])
              headset)).
Proof.
  exact (proj2 (proj2 (proj2
           (Device_suspended_listener_writes_last
              [("Connected", DBool true)] [("Alias", DStr "old")] aliased
              (DStr "/org/bluez/hci0") hci0 headset eq_refl eq_refl eq_refl)))).
Defined.

(** ** Setters and notifications *)

(** X14.  A local write and a later notification.  After a setter, a
    notification on the Entity's own interface (with distinct keys) that
    carries the property replaces the value written; one that does not carry
    it leaves the value written in place. *)
Theorem notification_after_setter :
  forall (N : Bag),
    wf_bag N ->
    (forall a,
       (forall v,
          Adapter._alias
            (fst (Adapter.on_PropertiesChanged Adapter.IFACE N
                    (fst (Adapter.set_alias v a)))) =
          overwritten N "Alias" (DStr v)) /\
       (forall v,
          Adapter._powered
            (fst (Adapter.on_PropertiesChanged Adapter.IFACE N
                    (fst (Adapter.set_powered v a)))) =
          overwritten N "Powered" (DBool v)) /\
       (forall v,
          Adapter._discoverable
            (fst (Adapter.on_PropertiesChanged Adapter.IFACE N
                    (fst (Adapter.set_discoverable v a)))) =
          overwritten N "Discoverable" (DBool v)) /\
       (forall v,
          Adapter._pairable
            (fst (Adapter.on_PropertiesChanged Adapter.IFACE N
                    (fst (Adapter.set_pairable v a)))) =
          overwritten N "Pairable" (DBool v)) /\
       (forall v,
          Adapter._pairableTimeout
            (fst (Adapter.on_PropertiesChanged Adapter.IFACE N
                    (fst (Adapter.set_pairableTimeout v a)))) =
          overwritten N "PairableTimeout" (DNum v)) /\
       (forall v,
          Adapter._discoverableTimeout
            (fst (Adapter.on_PropertiesChanged Adapter.IFACE N
                    (fst (Adapter.set_discoverableTimeout v a)))) =
          overwritten N "DiscoverableTimeout" (DNum v))) /\
    (forall fromPath d,
       Device.resolves fromPath N = true ->
       (forall v,
          Device._trusted
            (fst (fst (Device.handle fromPath Device.IFACE N
                         (fst (Device.set_trusted v d))))) =
          overwritten N "Trusted" (DBool v)) /\
       (forall v,
          Device._blocked
            (fst (fst (Device.handle fromPath Device.IFACE N
                         (fst (Device.set_blocked v d))))) =
          overwritten N "Blocked" (DBool v)) /\
       (forall v,
          Device._alias
            (fst (fst (Device.handle fromPath Device.IFACE N
                         (fst (Device.set_alias v d))))) =
          overwritten N "Alias" (DStr v))).
Proof.
  intros N Hwf.
  assert (HA : forall c a x,
            Adapter.get c a = Val x ->
            Adapter.get c (fst (Adapter.on_PropertiesChanged Adapter.IFACE N a)) =
            Val (overwritten N (Adapter.name_of c) x)).
  { intros c a x Hx. rewrite Adapter_handler_fields, Adapter_updated by assumption.
    unfold updated, overwritten. rewrite Hx.
    now destruct (bag_get (Adapter.name_of c) N). }
  assert (HD : forall fromPath c d x,
            Device.resolves fromPath N = true ->
            Device.get c d = Val x ->
            Device.get c (fst (fst (Device.handle fromPath Device.IFACE N d))) =
            Val (overwritten N (Device.name_of c) x)).
  { intros fromPath c d x Hres Hx.
    rewrite Device_handler_fields, Device_updated by assumption.
    unfold updated, overwritten. rewrite Hx.
    now destruct (bag_get (Device.name_of c) N). }
  split.
  - intros a. repeat split; intros v.
    + pose proof (HA Adapter.Alias (fst (Adapter.set_alias v a)) (DStr v) eq_refl)
        as H.
      now inversion H.
    + pose proof (HA Adapter.Powered (fst (Adapter.set_powered v a)) (DBool v)
                    eq_refl) as H.
      now inversion H.
    + pose proof (HA Adapter.Discoverable (fst (Adapter.set_discoverable v a))
                    (DBool v) eq_refl) as H.
      now inversion H.
    + pose proof (HA Adapter.Pairable (fst (Adapter.set_pairable v a)) (DBool v)
                    eq_refl) as H.
      now inversion H.
    + pose proof (HA Adapter.PairableTimeout
                    (fst (Adapter.set_pairableTimeout v a)) (DNum v) eq_refl) as H.
      now inversion H.
    + pose proof (HA Adapter.DiscoverableTimeout
                    (fst (Adapter.set_discoverableTimeout v a)) (DNum v) eq_refl)
        as H.
      now inversion H.
  - intros fromPath d Hres. repeat split; intros v.
    + pose proof (HD fromPath Device.Trusted (fst (Device.set_trusted v d))
                    (DBool v) Hres eq_refl) as H.
      now inversion H.
    + pose proof (HD fromPath Device.Blocked (fst (Device.set_blocked v d))
                    (DBool v) Hres eq_refl) as H.
      now inversion H.
    + pose proof (HD fromPath Device.Alias (fst (Device.set_alias v d))
                    (DStr v) Hres eq_refl) as H.
      now inversion H.
Qed.

Lemma X14_witness :
  Adapter._powered
    (fst (Adapter.on_PropertiesChanged Adapter.IFACE
            [("Powered", DBool false); ("Discovering", DBool true)]
            (fst (Adapter.set_powered true hci0)))) = DBool false /\
  Adapter._alias
    (fst (Adapter.on_PropertiesChanged Adapter.IFACE
            [("Powered", DBool false); ("Discovering", DBool true)]
            (fst (Adapter.set_alias "desk" hci0)))) = DStr "desk" /\
  Device._trusted
    (fst (fst (Device.handle only_hci0 Device.IFACE mixed
                 (fst (Device.set_trusted true headset))))) = DBool true.
Proof.
  destruct (notification_after_setter
              [("Powered", DBool false); ("Discovering", DBool true)]
              ltac:(solve_wf)) as [HA _].
  destruct (notification_after_setter mixed ltac:(solve_wf)) as [_ HD].
  destruct (HA hci0) as (Halias & Hpowered & _).
  destruct (HD only_hci0 headset eq_refl) as (Htrusted & _).
  split; [exact (Hpowered true)|]. split; [exact (Halias "desk")|].
  exact (Htrusted true).
Defined.

(** ** Battery.ofDevice *)

(** X15.  When [Battery.ofDevice] succeeds and how else it fails.  It
    returns a Battery exactly when the managed objects have an entry for the
    device's path that exposes the battery interface and both property reads,
    of [Percentage] and then of [Source], succeed; the Battery then has the
    device's path, the percentage read, and the source read, which is never
    null.  A failed query is passed on; a device path without entry is a
    [TypeError]; a failed read of [Percentage] or, after it, of [Source] is
    passed on, so a battery whose [Source] cannot be read is not
    constructed. *)
Theorem Battery_ofDevice_outcomes :
  forall (device : Device.t) (objects : Device.ManagedObjects)
         (Get : string -> string -> result dvalue),
    (forall r,
       Battery.ofDevice device (Ok objects) Get = Ok r <->
       exists object percentage source,
         index objects (Device._path device) = Some object /\
         includes (keys object) Battery.IFACE = true /\
         Get Battery.IFACE "Percentage" = Ok percentage /\
         Get Battery.IFACE "Source" = Ok source /\
         r = ({| Battery._path := Device._path device;
                 Battery._percentage := percentage;
                 Battery._source := Val source |},
              [ListenForChanges (Device._path device) Battery.IFACE])) /\
    (forall e, Battery.ofDevice device (Throw e) Get = Throw e) /\
    (index objects (Device._path device) = None ->
     Battery.ofDevice device (Ok objects) Get = Throw (TypeError "Object.keys")) /\
    (forall object e,
       index objects (Device._path device) = Some object ->
       includes (keys object) Battery.IFACE = true ->
       Get Battery.IFACE "Percentage" = Throw e ->
       Battery.ofDevice device (Ok objects) Get = Throw e) /\
    (forall object percentage e,
       index objects (Device._path device) = Some object ->
       includes (keys object) Battery.IFACE = true ->
       Get Battery.IFACE "Percentage" = Ok percentage ->
       Get Battery.IFACE "Source" = Throw e ->
       Battery.ofDevice device (Ok objects) Get = Throw e).
Proof.
  intros device objects Get. unfold Battery.ofDevice. simpl.
  repeat match goal with |- _ /\ _ => split end.
  - intros r. split.
    + destruct (index objects (Device._path device)) as [object|];
        [|intros H; discriminate H].
      destruct (includes (keys object) Battery.IFACE) eqn:Ei;
        [|intros H; discriminate H].
      simpl.
      destruct (Get Battery.IFACE "Percentage") as [p|e]; simpl;
        [|intros H; discriminate H].
      destruct (Get Battery.IFACE "Source") as [s|e]; simpl;
        [|intros H; discriminate H].
      intros E. inversion E; subst. exists object, p, s. now repeat split.
    + intros (object & p & s & -> & -> & -> & -> & ->). reflexivity.
  - reflexivity.
  - intros ->. reflexivity.
  - intros object e -> -> ->. reflexivity.
  - intros object p e -> -> -> ->. reflexivity.
Qed.

Lemma X15_witness :
  (exists r,
     Battery.ofDevice headset (Ok managed) battery_get = Ok r /\
     Battery._source (fst r) = Val (DStr "HFP 1.7")) /\
  Battery.ofDevice (device_at "/org/bluez/hci0/dev_00_00_00_00_00_01" "Gone")
    (Ok managed) battery_get = Throw (TypeError "Object.keys") /\
  Battery.ofDevice headset (Ok managed)
    (fun iface prop =>
       if prop =? "Source" then Throw (RemoteError "no such property")
       else battery_get iface prop) = Throw (RemoteError "no such property").
Proof.
  split; [|split].
  - eexists. split.
    + apply (Battery_ofDevice_outcomes headset managed battery_get).
      do 3 eexists. repeat split; reflexivity.
    + reflexivity.
  - apply (Battery_ofDevice_outcomes
             (device_at "/org/bluez/hci0/dev_00_00_00_00_00_01" "Gone")
             managed battery_get).
    reflexivity.
  - destruct (Battery_ofDevice_outcomes headset managed
                (fun iface prop =>
                   if prop =? "Source" then Throw (RemoteError "no such property")
                   else battery_get iface prop)) as (_ & _ & _ & _ & H).
    eapply H; reflexivity.
Defined.

(** ** Notifications, field by field: the statements *)

Lemma accepted_incl (fromPath : dvalue -> option Adapter.t) (N : Bag)
    (kv : string * dvalue) :
  In kv (accepted fromPath N) -> In kv N.
Proof.
  induction N as [|[k v] rest IH]; [tauto|]. rewrite accepted_cons.
  destruct (Device.case_of k), (fromPath v); simpl; intuition.
Qed.

Lemma wf_accepted (fromPath : dvalue -> option Adapter.t) (N : Bag) :
  wf_bag N -> wf_bag (accepted fromPath N).
Proof.
  unfold wf_bag. induction N as [|[k v] rest IH]; [tauto|].
  intros Hwf. simpl in Hwf. inversion Hwf as [|? ? Hk Hrest]; subst.
  assert (Hcons : NoDup (keys ((k, v) :: accepted fromPath rest))).
  { simpl. constructor; [|now apply IH].
    intros Hin. apply Hk. unfold keys in *. apply in_map_iff in Hin.
    destruct Hin as (kv & <- & Hin). apply in_map.
    now apply accepted_incl in Hin. }
  rewrite accepted_cons.
  destruct (Device.case_of k), (fromPath v); try assumption. constructor.
Qed.

(** X5.  What a notification on the Entity's own interface leaves in each
    field, the keys of the notification being distinct.  For an Adapter and a
    Battery: the value the notification has for the field's property, or else
    what the field held.  For a Device the same holds of the entries up to the
    first adapter path whose lookup is rejected, which are all the entries
    when the lookups resolve: a field holds the value these entries have for
    its property, or else what it held, and the adapter reference is the
    Adapter found for the adapter path among them, or else what it was. *)
Theorem notification_field_by_field :
  forall (N : Bag),
    wf_bag N ->
    (forall a c,
       Adapter.get c (fst (Adapter.on_PropertiesChanged Adapter.IFACE N a)) =
       updated N (Adapter.name_of c) (Adapter.get c a)) /\
    (forall fromPath d,
       (forall c,
          Device.get c (fst (fst (Device.handle fromPath Device.IFACE N d))) =
          updated (accepted fromPath N) (Device.name_of c) (Device.get c d)) /\
       Device._adapter (fst (fst (Device.handle fromPath Device.IFACE N d))) =
         match bag_get "Adapter" (accepted fromPath N) with
         | Some v => fromPath v
         | None => Device._adapter d
         end /\
       (Device.resolves fromPath N = true -> accepted fromPath N = N)) /\
    (forall b c,
       Battery.get c (fst (Battery.on_PropertiesChanged Battery.IFACE N b)) =
       updated N (Battery.name_of c) (Battery.get c b)).
Proof.
  intros N Hwf. split; [|split].
  - intros a c. rewrite Adapter_handler_fields. now apply Adapter_updated.
  - intros fromPath d.
    pose proof (wf_accepted fromPath N Hwf) as Hwf'.
    assert (Hf : fst (fst (Device.handle fromPath Device.IFACE N d)) =
                 steps (Device.step fromPath) d (accepted fromPath N)).
    { rewrite Device_handler_matching.
      destruct (Device_run_accepted fromPath N d) as (-> & _).
      now apply (Device_run_resolves fromPath (accepted fromPath N) d
                   (resolves_accepted fromPath N)). }
    rewrite Hf. split; [|split].
    + intros c. now apply Device_updated.
    + now apply Device_adapter_updated.
    + apply accepted_resolves.
  - intros b c. rewrite Battery_handler_fields. now apply Battery_updated.
Qed.

Lemma X5_witness :
  Adapter.get Adapter.Alias
    (fst (Adapter.on_PropertiesChanged Adapter.IFACE powered_and_discovering hci0))
    = Val (DStr "host") /\
  (Device.get Device.Name
     (fst (fst (Device.handle only_hci0 Device.IFACE moved_and_named headset)))
     = Null /\
   accepted only_hci0 mixed = mixed /\
   Device._adapter (fst (fst (Device.handle only_hci0 Device.IFACE mixed headset)))
     = Some hci0) /\
  Battery.get Battery.Source
    (fst (Battery.on_PropertiesChanged Battery.IFACE [("Percentage", DNum 55)] cell))
    = Null.
Proof.
  split; [|split].
  - destruct (notification_field_by_field powered_and_discovering ltac:(solve_wf))
      as (H & _ & _).
    exact (H hci0 Adapter.Alias).
  - destruct (notification_field_by_field moved_and_named ltac:(solve_wf))
      as (_ & Hnamed & _).
    destruct (notification_field_by_field mixed ltac:(solve_wf)) as (_ & H & _).
    split; [exact (proj1 (Hnamed only_hci0 headset) Device.Name)|].
    destruct (H only_hci0 headset) as (_ & Hadapter & Hall).
    split; [exact (Hall eq_refl)|exact Hadapter].
  - destruct (notification_field_by_field [("Percentage", DNum 55)] ltac:(solve_wf))
      as (_ & _ & H).
    exact (H cell Battery.Source).
Defined.

(** X7.  Applying a notification a second time changes no field, the keys
    of the notification being distinct, for an Adapter, for a Battery, and
    for a Device when the notification carries no adapter path (so that no
    lookup is made); the "changed" events are raised again all the same. *)
Theorem notification_idempotent_on_fields :
  forall (N : Bag),
    wf_bag N ->
    (forall a,
       let once := Adapter.on_PropertiesChanged Adapter.IFACE N a in
       let twice := Adapter.on_PropertiesChanged Adapter.IFACE N (fst once) in
       fst twice = fst once /\ emitted (snd twice) = emitted (snd once)) /\
    (forall d,
       plain N ->
       let once := Device.on_PropertiesChanged Device.IFACE N d in
       let twice :=
         Device.on_PropertiesChanged Device.IFACE N (fst (fst once)) in
       snd once = Device.Returned /\ snd twice = Device.Returned /\
       fst (fst twice) = fst (fst once) /\
       emitted (snd (fst twice)) = emitted (snd (fst once))) /\
    (forall b,
       let once := Battery.on_PropertiesChanged Battery.IFACE N b in
       let twice := Battery.on_PropertiesChanged Battery.IFACE N (fst once) in
       fst twice = fst once /\ emitted (snd twice) = 1).
Proof.
  intros N Hwf. split; [|split].
  - intros a. cbv zeta. rewrite !Adapter_handler_fields, !Adapter_handler_emitted.
    split; [|reflexivity].
    apply steps_twice; try assumption.
    + apply Adapter_step_overwrite.
    + apply Adapter_step_commute.
  - intros d Hplain. cbv zeta. rewrite !Device_listener_matching.
    set (look := fun _ : dvalue => @None Adapter.t).
    destruct (Device_loop_plain_fields look N d Hplain) as [Hf1 Hs1].
    destruct (Device_loop_plain_fields look N (fst (fst (Device.loop d N))) Hplain)
      as [Hf2 Hs2].
    split; [assumption|]. split; [assumption|]. split.
    + rewrite Hf2, Hf1. apply steps_twice; try assumption.
      * apply Device_step_overwrite.
      * apply Device_step_commute.
    + destruct (Device_loop_plain look N d Hplain) as [-> Hres].
      destruct (Device_loop_plain look N (fst (fst (Device.run look d N))) Hplain)
        as [-> _].
      destruct (Device_run_resolves look N d Hres) as (_ & _ & -> & _).
      now destruct (Device_run_resolves look N (fst (fst (Device.run look d N)))
                      Hres) as (_ & _ & -> & _).
  - intros b. cbv zeta. rewrite !Battery_handler_fields, Battery_handler_emitted.
    split; [|reflexivity].
    apply steps_twice; try assumption.
    + apply Battery_step_overwrite.
    + apply Battery_step_commute.
Qed.

Lemma X7_witness :
  fst (Adapter.on_PropertiesChanged Adapter.IFACE powered_and_discovering
         (fst (Adapter.on_PropertiesChanged Adapter.IFACE
                 powered_and_discovering hci0))) =
  fst (Adapter.on_PropertiesChanged Adapter.IFACE powered_and_discovering hci0) /\
  fst (fst (Device.on_PropertiesChanged Device.IFACE aliased
              (fst (fst (Device.on_PropertiesChanged Device.IFACE aliased
                           headset))))) =
  fst (fst (Device.on_PropertiesChanged Device.IFACE aliased headset)).
Proof.
  split.
  - destruct (notification_idempotent_on_fields powered_and_discovering
                ltac:(solve_wf)) as (H & _ & _).
    exact (proj1 (H hci0)).
  - destruct (notification_idempotent_on_fields aliased ltac:(solve_wf))
      as (_ & H & _).
    destruct (H headset eq_refl) as (_ & _ & Hf & _). exact Hf.
Defined.
